(** * wheel-app: the JSON API of [server.js]

    A shallow embedding of [handleApi] and of the in-memory [wheels] store of
    [src/server.js], with the properties of its create, describe, list-results
    and spin routes.

    Conventions of the embedding.
    - The store [const wheels = {}] is a finite map from identifiers to wheel
      objects (its own properties) together with the properties every plain
      JavaScript object inherits from [Object.prototype]: a lookup
      [wheels[id]] sees both.
    - Payload strings are sequences of UTF-16 code units, so that
      [String.prototype.trim] can be written out in full.  Path names and
      identifiers are 7-bit strings (a parsed URL path is percent-encoded).
    - Numbers are IEEE 754 binary64 doubles, the primitive floats of the
      kernel: NaN, the two infinities and the two zeros are values, and sums,
      products and comparisons round, overflow and compare as those of the
      machine do.
    - A request is handled in one step: the method, the parsed path and the
      complete body (parsed, or unparsable) are given, and the result is the
      response that [sendJson] writes together with the store afterwards.
      A TypeError that no handler catches is an outcome of its own; the store
      it is paired with is the one at the moment of the throw. *)

From Stdlib Require Import String Ascii List ZArith NArith QArith Lia Bool Floats.
From stdpp Require Import base option list strings gmap.
Import ListNotations.

Local Open Scope string_scope.
Local Open Scope list_scope.

(** ** JavaScript values *)

Module Js.

(** A string value: its UTF-16 code units. *)
Definition jsstr := list N.

(** A 7-bit literal as a string value. *)
Definition str (s : string) : jsstr :=
  List.map N_of_ascii (list_ascii_of_string s).

(** WhiteSpace and LineTerminator code points of ECMAScript, the characters
    that [trim] strips: TAB, LF, VT, FF, CR, SP, NBSP, U+1680,
    U+2000..U+200A, LS, PS, U+202F, U+205F, U+3000 and U+FEFF. *)
Definition is_white_space (c : N) : bool :=
  ((9 <=? c) && (c <=? 13) || (c =? 32) || (c =? 160) || (c =? 5760)
   || (8192 <=? c) && (c <=? 8202) || (c =? 8232) || (c =? 8233)
   || (c =? 8239) || (c =? 8287) || (c =? 12288) || (c =? 65279))%N.

Fixpoint trimStart (s : jsstr) : jsstr :=
  match s with
  | [] => []
  | c :: s' => if is_white_space c then trimStart s' else s
  end.

Definition trimEnd (s : jsstr) : jsstr := rev (trimStart (rev s)).

(** [s.trim()] *)
Definition trim (s : jsstr) : jsstr := trimEnd (trimStart s).

(** A number value: a double. *)
Definition number : Type := float.

(** A finite number above zero: what the weight of an entry has to be for
    create to store the entry. *)
Definition positive (n : number) : Prop :=
  is_finite n = true /\ (0 <? n)%float = true.

(** The real number that a finite double stands for (0 for the others):
    what the sums of the loop are compared with where a property is read
    over the real numbers. *)
Definition real_value (n : number) : Q :=
  match Prim2SF n with
  | S754_finite s m e =>
      ((if s then -1 else 1) * inject_Z (Z.pos m) * Qpower 2 e)%Q
  | _ => 0%Q
  end.

(** The values a handler meets: what [JSON.parse] builds, and [undefined]
    for a property that is not there.  An object is the list of its own
    properties. *)
#[warnings="-register-all"] Inductive value : Type :=
| Undefined
| Null
| Boolean (b : bool)
| Num (n : number)
| Str (s : jsstr)
| Arr (elements : list value)
| Obj (fields : list (jsstr * value)).

(** Evaluation that may throw a TypeError. *)
Inductive result (A : Type) : Type :=
| Ok (a : A)
| TypeError.
Arguments Ok {A} a.
Arguments TypeError {A}.

#[global] Instance result_ret : MRet result := fun A a => Ok a.
#[global] Instance result_bind : MBind result := fun A B k m =>
  match m with
  | Ok a => k a
  | TypeError => TypeError
  end.

Fixpoint own_property (fields : list (jsstr * value)) (k : jsstr) : value :=
  match fields with
  | [] => Undefined
  | (k', v) :: rest => if decide (k' = k) then v else own_property rest k
  end.

(** [v.k] for one of the property names the handlers read ([options],
    [label], [weight], [name], [phone]).  None of them is defined on a
    built-in prototype, so the read yields an own property of an object or
    [undefined]; on [null] and [undefined] it throws. *)
Definition get (v : value) (k : string) : result value :=
  match v with
  | Undefined | Null => TypeError
  | Obj fields => Ok (own_property fields (str k))
  | _ => Ok Undefined
  end.

(** [!v] is false *)
Definition truthy (v : value) : bool :=
  match v with
  | Undefined | Null => false
  | Boolean b => b
  | Num n => negb (is_nan n || is_zero n)
  | Str s => negb (bool_decide (s = []))
  | Arr _ | Obj _ => true
  end.

(** [typeof v === 'string' ? v.trim() : ''] *)
Definition trimmed_string (v : value) : jsstr :=
  match v with
  | Str s => trim s
  | _ => []
  end.

Section Coercion.

(** The parts of [Number(v)] that the language defines by parsing text and
    by calling [valueOf]/[toString]: the numeric value of a string, and
    the conversion of an array or an object, which may throw. *)
Variable StringToNumber : jsstr -> number.
Variable ObjectToNumber : value -> result number.

(** [Number(v)] *)
Definition Number (v : value) : result number :=
  match v with
  | Undefined => Ok nan
  | Null => Ok 0%float
  | Boolean true => Ok 1%float
  | Boolean false => Ok 0%float
  | Num n => Ok n
  | Str s => Ok (StringToNumber s)
  | Arr _ | Obj _ => ObjectToNumber v
  end.

End Coercion.

End Js.


(** ** The data model *)

(** [{ label, weight }] as [options.push] stores it. *)
Record wheel_option : Type := { label : Js.jsstr; weight : Js.number }.

(** [{ name, phone, result, timestamp }] as [wheel.results.push] stores it. *)
Record spin_result : Type :=
  { name : Js.jsstr; phone : Js.jsstr; result : Js.jsstr; timestamp : Z }.

(** [{ id, options, results }] *)
Module Wheel.
Record t : Type :=
  { id : string; options : list wheel_option; results : list spin_result }.

(** [wheel.results.push(result)] *)
Definition push (w : t) (r : spin_result) : t :=
  {| id := id w; options := options w; results := results w ++ [r] |}.
End Wheel.

(** The names that a plain object inherits from [Object.prototype]; each of
    them holds a function or an object, so [wheels[name]] is truthy although
    the store has no such wheel. *)
Definition Object_prototype : list string :=
  [ "constructor"; "__defineGetter__"; "__defineSetter__"; "hasOwnProperty";
    "__lookupGetter__"; "__lookupSetter__"; "isPrototypeOf";
    "propertyIsEnumerable"; "toString"; "valueOf"; "__proto__";
    "toLocaleString" ].

(** The value of [wheels[id]]. *)
Inductive slot : Type :=
| Missing                  (* undefined *)
| Inherited                (* a member of Object.prototype *)
| Stored (w : Wheel.t).    (* a wheel put there by create *)

Definition wheels_get (wheels : gmap string Wheel.t) (id : string) : slot :=
  match wheels !! id with
  | Some w => Stored w
  | None => if bool_decide (id ∈ Object_prototype) then Inherited else Missing
  end.

(** [!wheels[id]] is false *)
Definition occupied (wheels : gmap string Wheel.t) (id : string) : bool :=
  match wheels_get wheels id with
  | Missing => false
  | _ => true
  end.

(** ** Requests and responses *)

Record request : Type :=
  { method : string;            (* req.method *)
    pathname : string;          (* new URL(req.url, ...).pathname *)
    body : option Js.value }.   (* JSON.parse(body), None when it throws *)

(** What the handler of one request draws from its surroundings. *)
Record env : Type :=
  { random36 : nat -> string;   (* Math.random().toString(36), call by call *)
    random : Js.number;         (* Math.random() in the spin route *)
    now : Z }.                  (* Date.now() *)

(** The [data] argument of [sendJson]. *)
Inductive json : Type :=
| ErrorBody (error : string)
| CreatedBody (id link resultsLink : string)
| WheelBody (id : option string) (options : option (list wheel_option))
| ResultsBody (id : string) (results : list spin_result)
| SpinBody (result : Js.jsstr).

Inductive outcome : Type :=
| Sent (statusCode : Z) (data : json)   (* sendJson(res, statusCode, data) *)
| NotApi                                (* handleApi returns false *)
| Uncaught.                             (* a TypeError leaves the handler *)

Definition sendJson (statusCode : Z) (data : json) : outcome :=
  Sent statusCode data.

(** ** Identifiers *)

(** [Math.random().toString(36).substring(2, 10)], from the radix-36 rendering
    of the draw. *)
Definition generateId (rendered : string) : string := substring 2 8 rendered.

Definition is_base36_digit (c : ascii) : bool :=
  let n := nat_of_ascii c in
  ((48 <=? n) && (n <=? 57) || (97 <=? n) && (n <=? 122))%nat.

Fixpoint all_chars (p : ascii -> bool) (s : string) : bool :=
  match s with
  | EmptyString => true
  | String c s' => p c && all_chars p s'
  end.

(** The radix-36 rendering of a number of the interval [0, 1): "0" for zero,
    otherwise "0." followed by digits among 0-9 and a-z. *)
Definition radix36 (s : string) : bool :=
  match s with
  | String "0" EmptyString => true
  | String "0" (String "." digits) => all_chars is_base36_digit digits
  | _ => false
  end.

(** At most eight base-36 digits. *)
Definition is_base36_id (id : string) : bool :=
  (String.length id <=? 8)%nat && all_chars is_base36_digit id.

(** ** Routes *)

(** The class [[a-zA-Z0-9_-]] *)
Definition is_id_char (c : ascii) : bool :=
  let n := nat_of_ascii c in
  ((97 <=? n) && (n <=? 122) || (65 <=? n) && (n <=? 90)
   || (48 <=? n) && (n <=? 57) || (n =? 95) || (n =? 45))%nat.

Fixpoint strip_prefix (p s : string) : option string :=
  match p, s with
  | EmptyString, _ => Some s
  | String a p', String b s' => if Ascii.eqb a b then strip_prefix p' s' else None
  | String _ _, EmptyString => None
  end.

(** The longest prefix of characters of a class, and the rest. *)
Fixpoint span (p : ascii -> bool) (s : string) : string * string :=
  match s with
  | EmptyString => (EmptyString, EmptyString)
  | String c s' =>
      if p c then let (run, rest) := span p s' in (String c run, rest)
      else (EmptyString, s)
  end.

(** [pathname.match(/^\/api\/wheel\/([a-zA-Z0-9_-]+)<tail>/)], the captured
    group.  The pattern is anchored at the start only.  The group is greedy,
    and a shorter run is followed by a character of the class, never by the
    slash that begins the tail: the run that matches is the longest one. *)
Definition match_wheel (tail pathname : string) : option string :=
  match strip_prefix "/api/wheel/" pathname with
  | None => None
  | Some rest =>
      let (run, after) := span is_id_char rest in
      match run with
      | EmptyString => None
      | _ => match strip_prefix tail after with Some _ => Some run | None => None end
      end
  end.

(** ** Weighted selection *)

(** [wheel.options.reduce((sum, opt) => sum + opt.weight, 0)]: the sum of
    the doubles from the left, each addition rounded. *)
Definition totalWeight (options : list wheel_option) : Js.number :=
  fold_left (fun sum opt => sum + weight opt)%float options 0%float.

(** The loop of spin over [wheel.options], from the running sum
    [cumulative] on; [chosen] is the value the variable holds on entry. *)
Fixpoint walk (options : list wheel_option) (r cumulative : Js.number)
    (chosen : option wheel_option) : option wheel_option :=
  match options with
  | [] => chosen
  | opt :: rest =>
      let cumulative := (cumulative + weight opt)%float in
      if (r <? cumulative)%float then Some opt
      else walk rest r cumulative chosen
  end.

(** [let cumulative = 0; let chosen = wheel.options[0]; for (...)];
    [None] is [undefined]. *)
Definition choose (options : list wheel_option) (r : Js.number)
  : option wheel_option :=
  walk options r 0%float (head options).

(** The running sum on entry of iteration [i] of the loop, as the loop
    computes it. *)
Definition cumulative_before (options : list wheel_option) (i : nat)
  : Js.number :=
  totalWeight (take i options).

(** The running sum before option [i] read over the real numbers: the sum
    of the real values of the weights before it, not rounded. *)
Definition real_before (options : list wheel_option) (i : nat) : Q :=
  fold_left (fun sum opt => sum + Js.real_value (weight opt))%Q
            (take i options) 0%Q.

(** ** The handlers *)

Module Server.
Section Handlers.

Variable StringToNumber : Js.jsstr -> Js.number.
Variable ObjectToNumber : Js.value -> Js.result Js.number.

Abbreviation Number := (Js.Number StringToNumber ObjectToNumber).

(** [!label || !Number.isFinite(weight) || weight <= 0] is false: the
    option to push. *)
Definition checked_option (label : Js.jsstr) (weight : Js.number)
  : option wheel_option :=
  match label with
  | [] => None
  | _ =>
      if negb (is_finite weight) || (weight <=? 0)%float then None
      else Some {| label := label; weight := weight |}
  end.

(** The loop of create over [payload.options]: [Ok (Some options)] when
    every entry passes, [Ok None] when an entry is refused (the 400 answer),
    [TypeError] when reading an entry throws. *)
Fixpoint sanitise (entries : list Js.value) (options : list wheel_option)
  : Js.result (option (list wheel_option)) :=
  match entries with
  | [] => mret (Some options)
  | opt :: rest =>
      l ← Js.get opt "label";
      let label := Js.trimmed_string l in
      w ← Js.get opt "weight";
      weight ← Number w;
      match checked_option label weight with
      | None => mret None
      | Some o => sanitise rest (options ++ [o])
      end
  end.

(** [!payload || !Array.isArray(payload.options) ||
    payload.options.length === 0] is false: the array. *)
Definition options_array (payload : Js.value) : option (list Js.value) :=
  if Js.truthy payload then
    match Js.get payload "options" with
    | Js.Ok (Js.Arr (e :: es)) => Some (e :: es)
    | _ => None
    end
  else None.

(** [for (let i = 0; i < 5; i++) { id = generateId(); if (!wheels[id])
    break; }] from iteration [i] on, with [S retries] iterations left: the
    last identifier generated and the number of calls of [generateId]. *)
Fixpoint allocate (E : env) (wheels : gmap string Wheel.t) (i retries : nat)
  : string * nat :=
  let id := generateId (random36 E i) in
  if occupied wheels id then
    match retries with
    | O => (id, S i)
    | S retries' => allocate E wheels (S i) retries'
    end
  else (id, S i).

(** POST /api/wheels *)
Definition createWheel (E : env) (wheels : gmap string Wheel.t)
    (body : option Js.value) : outcome * gmap string Wheel.t :=
  match body with
  | None => (sendJson 400 (ErrorBody "Invalid JSON"), wheels)
  | Some payload =>
      match options_array payload with
      | None => (sendJson 400 (ErrorBody "options array is required"), wheels)
      | Some entries =>
          match sanitise entries [] with
          | Js.TypeError => (Uncaught, wheels)
          | Js.Ok None =>
              (sendJson 400 (ErrorBody
                 "Each option must contain a non-empty label and a positive numeric weight"),
               wheels)
          | Js.Ok (Some options) =>
              let id := fst (allocate E wheels 0 4) in
              if occupied wheels id then
                (sendJson 500 (ErrorBody "Could not allocate id"), wheels)
              else
                (sendJson 201
                   (CreatedBody id ("/wheel.html?id=" ++ id)
                                ("/results.html?id=" ++ id)),
                 <[id := {| Wheel.id := id; Wheel.options := options;
                            Wheel.results := [] |}]> wheels)
          end
      end
  end.

(** GET /api/wheel/:id *)
Definition describeWheel (wheels : gmap string Wheel.t) (id : string)
  : outcome :=
  match wheels_get wheels id with
  | Missing => sendJson 404 (ErrorBody "Wheel not found")
  | Inherited => sendJson 200 (WheelBody None None)
  | Stored wheel =>
      sendJson 200 (WheelBody (Some (Wheel.id wheel))
                              (Some (Wheel.options wheel)))
  end.

(** GET /api/wheel/:id/results *)
Definition listResults (wheels : gmap string Wheel.t) (id : string)
  : outcome :=
  match wheels_get wheels id with
  | Missing => sendJson 404 (ErrorBody "Wheel not found")
  | Inherited => Uncaught
  | Stored wheel =>
      let results := List.map (fun item => item) (Wheel.results wheel) in
      sendJson 200 (ResultsBody (Wheel.id wheel) results)
  end.

(** POST /api/wheel/:id/spin *)
Definition spin (E : env) (wheels : gmap string Wheel.t) (id : string)
    (body : option Js.value) : outcome * gmap string Wheel.t :=
  match wheels_get wheels id with
  | Missing => (sendJson 404 (ErrorBody "Wheel not found"), wheels)
  | found =>
      match body with
      | None => (sendJson 400 (ErrorBody "Invalid JSON"), wheels)
      | Some payload =>
          match Js.get payload "name", Js.get payload "phone" with
          | Js.Ok n, Js.Ok p =>
              let name := Js.trimmed_string n in
              let phone := Js.trimmed_string p in
              match name, phone with
              | [], _ | _, [] =>
                  (sendJson 400 (ErrorBody "Name and phone are required"),
                   wheels)
              | _, _ =>
                  match found with
                  | Stored wheel =>
                      let r := (random E * totalWeight (Wheel.options wheel))%float in
                      match choose (Wheel.options wheel) r with
                      | Some chosen =>
                          let result :=
                            {| name := name; phone := phone;
                               result := label chosen;
                               timestamp := now E |} in
                          (sendJson 200 (SpinBody (label chosen)),
                           <[id := Wheel.push wheel result]> wheels)
                      | None => (Uncaught, wheels)
                      end
                  | _ => (Uncaught, wheels)
                  end
              end
          | _, _ => (Uncaught, wheels)
          end
      end
  end.

(** [handleApi(req, res)] with the callbacks it registers on the request. *)
Definition handleApi (E : env) (wheels : gmap string Wheel.t) (req : request)
  : outcome * gmap string Wheel.t :=
  if String.eqb (method req) "POST" && String.eqb (pathname req) "/api/wheels"
  then createWheel E wheels (body req)
  else
    let wheelDefMatch := match_wheel "" (pathname req) in
    match String.eqb (method req) "GET", wheelDefMatch with
    | true, Some id => (describeWheel wheels id, wheels)
    | _, _ =>
        let resultsMatch := match_wheel "/results" (pathname req) in
        match String.eqb (method req) "GET", resultsMatch with
        | true, Some id => (listResults wheels id, wheels)
        | _, _ =>
            let spinMatch := match_wheel "/spin" (pathname req) in
            match String.eqb (method req) "POST", spinMatch with
            | true, Some id => spin E wheels id (body req)
            | _, _ => (NotApi, wheels)
            end
        end
    end.

(** *** Vocabulary of the properties *)

(** The body of a create request carries the array [entries] as its
    [options]. *)
Definition submits (payload : Js.value) (entries : list Js.value) : Prop :=
  exists fields, payload = Js.Obj fields
    /\ Js.own_property fields (Js.str "options") = Js.Arr entries.

(** Reading the label and the weight of an entry and coercing the weight
    does not throw: the entry is not [null], and [Number] returns. *)
Definition readable (opt : Js.value) : Prop :=
  exists l w n, Js.get opt "label" = Js.Ok l /\ Js.get opt "weight" = Js.Ok w
    /\ Number w = Js.Ok n.

(** The label of the entry is empty after trimming (or is no string), or
    its weight does not coerce to a finite positive number. *)
Definition invalid_entry (opt : Js.value) : Prop :=
  exists l w, Js.get opt "label" = Js.Ok l /\ Js.get opt "weight" = Js.Ok w
    /\ (Js.trimmed_string l = []
        \/ forall n, Number w = Js.Ok n -> ~ Js.positive n).

(** The entry is valid and [o] is what it is stored as: its label is a
    string, [o] holds the trimmed label, which is not empty, and the
    finite positive number its weight coerces to. *)
Definition stored_as (opt : Js.value) (o : wheel_option) : Prop :=
  exists s w, Js.get opt "label" = Js.Ok (Js.Str s) /\ label o = Js.trim s
    /\ label o <> []
    /\ Js.get opt "weight" = Js.Ok w /\ Number w = Js.Ok (weight o)
    /\ Js.positive (weight o).

(** Every stored wheel has at least one option, and its options have a
    label that is not empty and a positive weight. *)
Definition options_valid (wheels : gmap string Wheel.t) : Prop :=
  forall k w, wheels !! k = Some w ->
    Wheel.options w <> []
    /\ Forall (fun o => label o <> [] /\ Js.positive (weight o)) (Wheel.options w).

(** Every key of the store holds the wheel of that identifier. *)
Definition keys_match (wheels : gmap string Wheel.t) : Prop :=
  forall k w, wheels !! k = Some w -> Wheel.id w = k.

End Handlers.
End Server.

(** ** Sample inputs *)

Module Sample.

(** Coercions for inputs whose weights are JSON numbers, on which [Number]
    consults neither of them. *)
Definition StringToNumber (s : Js.jsstr) : Js.number := nan.
Definition ObjectToNumber (v : Js.value) : Js.result Js.number := Js.Ok nan.

Definition entry (l : string) (w : Js.number) : Js.value :=
  Js.Obj [(Js.str "label", Js.Str (Js.str l));
          (Js.str "weight", Js.Num w)].

Definition create (entries : list Js.value) : request :=
  {| method := "POST"; pathname := "/api/wheels";
     body := Some (Js.Obj [(Js.str "options", Js.Arr entries)]) |}.

Definition spin_request (id : string) (payload : Js.value) : request :=
  {| method := "POST"; pathname := "/api/wheel/" ++ id ++ "/spin";
     body := Some payload |}.

Definition participant (n p : string) : Js.value :=
  Js.Obj [(Js.str "name", Js.Str (Js.str n));
          (Js.str "phone", Js.Str (Js.str p))].

(** Every draw of [Math.random()] renders as "0.k3x9q2mzp7"; the draw of a
    spin is 1/2 and the clock shows 1700000000000. *)
Definition E : env :=
  {| random36 := fun _ => "0.k3x9q2mzp7"; random := 0.5%float; now := 1700000000000 |}.

(** The first two draws render as above, the later ones as "0.zz". *)
Definition E_retry : env :=
  {| random36 := fun i => if (i <? 2)%nat then "0.k3x9q2mzp7" else "0.zz";
     random := 0.5%float; now := 1700000000001 |}.

Definition Prize : wheel_option := {| label := Js.str "Prize"; weight := 1%float |}.
Definition Nothing : wheel_option :=
  {| label := Js.str "Nothing"; weight := 9%float |}.

(** The store after one create with the options Prize (1) and Nothing (9),
    and one spin. *)
Definition wheel : Wheel.t :=
  {| Wheel.id := "k3x9q2mz"; Wheel.options := [Prize; Nothing];
     Wheel.results :=
       [ {| name := Js.str "Ann"; phone := Js.str "555-1";
            result := Js.str "Nothing"; timestamp := 1700000000000 |} ] |}.

Definition wheels : gmap string Wheel.t := {[ "k3x9q2mz" := wheel ]}.

(** A valid submission, and one whose second label is blank. *)
Definition entries : list Js.value :=
  [entry " Prize " 1%float; entry "Nothing" 9%float].
Definition blank_entries : list Js.value :=
  [entry "Prize" 1%float; entry "   " 9%float].
Definition payload (entries : list Js.value) : Js.value :=
  Js.Obj [(Js.str "options", Js.Arr entries)].

End Sample.


(** ** Sequences of requests *)

Module History.
Section Runs.

Variable StringToNumber : Js.jsstr -> Js.number.
Variable ObjectToNumber : Js.value -> Js.result Js.number.

(** The process handles one request after the other on the store the
    previous one left: the answers in their order, and the store at the
    end.  Each request comes with what its handler draws from the
    surroundings. *)
Fixpoint serve (wheels : gmap string Wheel.t) (requests : list (env * request))
  : list outcome * gmap string Wheel.t :=
  match requests with
  | [] => ([], wheels)
  | (E, req) :: rest =>
      let (out, wheels') :=
        Server.handleApi StringToNumber ObjectToNumber E wheels req in
      let (outs, final) := serve wheels' rest in
      (out :: outs, final)
  end.

End Runs.

(** The request is a spin of the wheel [id] and its answer is the label
    chosen. *)
Definition spin_recorded (id : string) (req : request) (out : outcome) : bool :=
  String.eqb (method req) "POST"
  && bool_decide (match_wheel "/spin" (pathname req) = Some id)
  && match out with
     | Sent 200 (SpinBody _) => true
     | _ => false
     end.

(** The answer is that of a create that stored a wheel. *)
Definition wheel_created (out : outcome) : bool :=
  match out with
  | Sent 201 (CreatedBody _ _ _) => true
  | _ => false
  end.

(** The number of spins of the wheel [id] that a run recorded. *)
Fixpoint count_spins (id : string) (requests : list (env * request))
    (outs : list outcome) : nat :=
  match requests, outs with
  | (_, req) :: requests', out :: outs' =>
      (if spin_recorded id req out then 1 else 0) + count_spins id requests' outs'
  | _, _ => 0
  end.

(** The number of wheels that a run created. *)
Definition count_created (outs : list outcome) : nat :=
  length (List.filter wheel_created outs).

(** The number of results the store holds for [id]. *)
Definition results_count (wheels : gmap string Wheel.t) (id : string) : nat :=
  match wheels !! id with
  | Some w => length (Wheel.results w)
  | None => 0
  end.

(** A string value that is not empty and neither begins nor ends with a
    character that [trim] strips. *)
Definition trimmed (s : Js.jsstr) : Prop :=
  s <> []
  /\ (forall c, head s = Some c -> Js.is_white_space c = false)
  /\ (forall c, last s = Some c -> Js.is_white_space c = false).

(** The labels of the options and the names and phones of the results of
    every stored wheel are trimmed. *)
Definition strings_trimmed (wheels : gmap string Wheel.t) : Prop :=
  forall k w, wheels !! k = Some w ->
    Forall (fun o => trimmed (label o)) (Wheel.options w)
    /\ Forall (fun r => trimmed (name r) /\ trimmed (phone r)) (Wheel.results w).

(** Every recorded result carries the label of an option of its wheel. *)
Definition results_from_options (wheels : gmap string Wheel.t) : Prop :=
  forall k w, wheels !! k = Some w ->
    Forall (fun r => exists o, o ∈ Wheel.options w /\ result r = label o)
           (Wheel.results w).

(** Every key of the store is made of at most eight base-36 digits. *)
Definition keys_base36 (wheels : gmap string Wheel.t) : Prop :=
  forall k w, wheels !! k = Some w -> is_base36_id k = true.

(** What a store keeps of an earlier one: every wheel of the earlier store
    is there under its key, with its identifier and its options, and with
    results that begin with the earlier results. *)
Definition extends (earlier later : gmap string Wheel.t) : Prop :=
  forall k w, earlier !! k = Some w ->
    exists w', later !! k = Some w'
      /\ Wheel.id w' = Wheel.id w
      /\ Wheel.options w' = Wheel.options w
      /\ Wheel.results w `prefix_of` Wheel.results w'.

End History.

(** ** Static files and the request listener *)

Module Static.

(** [s.toLowerCase()] on 7-bit characters; a path is kept as its bytes, and
    the bytes of the other characters are left as they are (no character
    outside the 7-bit range has a letter of the extensions below as its
    lower case). *)
Definition lower (c : ascii) : ascii :=
  let n := nat_of_ascii c in
  if ((65 <=? n) && (n <=? 90))%nat then ascii_of_nat (n + 32) else c.

Fixpoint toLowerCase (s : string) : string :=
  match s with
  | EmptyString => EmptyString
  | String c s' => String (lower c) (toLowerCase s')
  end.

(** What can be written on [res]. *)
Inductive sent_body : Type :=
| Json (data : json)          (* JSON.stringify(data) *)
| Content (content : string)  (* the bytes of a file *)
| Text (text : string)
| NoBody.

(** The calls made on [res], in their order. *)
Inductive res_call : Type :=
| WriteHead (statusCode : Z) (contentType : string)
| End (body : sent_body).

(** A call that completes or throws. *)
Inductive completion (A : Type) : Type :=
| Returns (a : A)
| Throws.
Arguments Returns {A} a.
Arguments Throws {A}.

(** [res.writeHead(statusCode, { 'Content-Type': contentType })]: it throws
    ERR_HTTP_HEADERS_SENT once the head of the response has been written. *)
Definition writeHead (res : list res_call) (statusCode : Z) (contentType : string)
  : completion (list res_call) :=
  match res with
  | [] => Returns [WriteHead statusCode contentType]
  | _ => Throws
  end.

(** [res.end(body)], called after [writeHead] has returned. *)
Definition end_ (res : list res_call) (body : sent_body) : list res_call :=
  res ++ [End body].

(** [sendJson(res, statusCode, data)] *)
Definition sendJson (res : list res_call) (statusCode : Z) (data : json)
  : completion (list res_call) :=
  match writeHead res statusCode "application/json; charset=utf-8" with
  | Returns res' => Returns (end_ res' (Json data))
  | Throws => Throws
  end.

(** An entry of the file system; a file whose content is [None] cannot be
    read. *)
Inductive node : Type :=
| Directory
| File (content : option string).

(** [filePath.endsWith('/')] *)
Fixpoint ends_with_slash (s : string) : bool :=
  match s with
  | EmptyString => false
  | String c EmptyString => Ascii.eqb c "/"
  | String _ s' => ends_with_slash s'
  end.

(** What [handleApi(req, res)] resolves to. *)
Inductive returned : Type :=
| ReturnsTrue
| ReturnsFalse
| ReturnsUndefined   (* return sendJson(...), which returns nothing *)
| Rejects.           (* a TypeError thrown before any return *)

(** The value of [handleApi]: [true] after the callbacks of create and of
    spin are registered, the value of [sendJson] where the answer is sent at
    once, [false] at the end. *)
Definition apiHandled (wheels : gmap string Wheel.t) (req : request) : returned :=
  if String.eqb (method req) "POST" && String.eqb (pathname req) "/api/wheels"
  then ReturnsTrue
  else
    match String.eqb (method req) "GET", match_wheel "" (pathname req) with
    | true, Some _ => ReturnsUndefined
    | _, _ =>
        match String.eqb (method req) "GET",
              match_wheel "/results" (pathname req) with
        | true, Some id =>
            match wheels_get wheels id with
            | Inherited => Rejects
            | _ => ReturnsUndefined
            end
        | _, _ =>
            match String.eqb (method req) "POST",
                  match_wheel "/spin" (pathname req) with
            | true, Some id =>
                match wheels_get wheels id with
                | Missing => ReturnsUndefined
                | _ => ReturnsTrue
                end
            | _, _ => ReturnsFalse
            end
        end
    end.

(** What the listener of one request leaves: the calls made on [res], and
    whether an error escaped (the listener rejected, or a callback threw). *)
Record served : Type := { response : list res_call; escaped : bool }.

Section Files.

(** Node's [decodeURI] (which throws on a malformed escape), [path.join],
    [path.resolve] and [path.extname], the file system as the calls of one
    request see it, and [path.join(__dirname, 'public')]. *)
Variable decodeURI : string -> option string.
Variable join : string -> string -> string.
Variable resolve : string -> string.
Variable extname : string -> string.
Variable fs : string -> option node.
Variable publicDir : string.

Variable StringToNumber : Js.jsstr -> Js.number.
Variable ObjectToNumber : Js.value -> Js.result Js.number.

Definition getContentType (filePath : string) : string :=
  let ext := toLowerCase (extname filePath) in
  if String.eqb ext ".html" then "text/html; charset=utf-8"
  else if String.eqb ext ".css" then "text/css; charset=utf-8"
  else if String.eqb ext ".js" then "text/javascript; charset=utf-8"
  else if String.eqb ext ".json" then "application/json; charset=utf-8"
  else if String.eqb ext ".png" then "image/png"
  else if String.eqb ext ".jpg" then "image/jpeg"
  else if String.eqb ext ".jpeg" then "image/jpeg"
  else if String.eqb ext ".svg" then "image/svg+xml"
  else if String.eqb ext ".ico" then "image/x-icon"
  else "application/octet-stream".

(** [fs.readFileSync(filePath)] *)
Definition readFileSync (filePath : string) : completion string :=
  match fs filePath with
  | Some (File (Some content)) => Returns content
  | _ => Throws
  end.

(** The [try] block of [tryServeStatic]: whatever is thrown in it is caught
    and the function returns false. *)
Definition send_file (req : request) (res : list res_call) (filePath : string)
  : bool * list res_call :=
  let contentType := getContentType filePath in
  match readFileSync filePath with
  | Throws => (false, res)
  | Returns content =>
      match writeHead res 200 contentType with
      | Throws => (false, res)
      | Returns res' =>
          if String.eqb (method req) "GET" then (true, end_ res' (Content content))
          else (true, end_ res' NoBody)
      end
  end.

Definition tryServeStatic (req : request) (res : list res_call) (baseDir : string)
  : completion (bool * list res_call) :=
  match decodeURI (pathname req) with
  | None => Throws
  | Some pathname =>
      if negb (String.eqb (method req) "GET") && negb (String.eqb (method req) "HEAD")
      then Returns (false, res)
      else
        let filePath := join baseDir pathname in
        let filePath :=
          if ends_with_slash filePath then join filePath "index.html" else filePath in
        if negb (String.prefix (resolve baseDir) filePath) then Returns (false, res)
        else
          match fs filePath with
          | None => Returns (false, res)
          | Some Directory =>
              let filePath := join filePath "index.html" in
              match fs filePath with
              | None => Returns (false, res)
              | Some _ => Returns (send_file req res filePath)
              end
          | Some (File _) => Returns (send_file req res filePath)
          end
  end.

(** The listener given to [http.createServer]. *)
Definition listener (E : env) (wheels : gmap string Wheel.t) (req : request)
  : served * gmap string Wheel.t :=
  let (out, wheels') :=
    Server.handleApi StringToNumber ObjectToNumber E wheels req in
  let written :=
    match out with
    | Sent statusCode data =>
        match sendJson [] statusCode data with
        | Returns res => res
        | Throws => []
        end
    | _ => []
    end in
  match apiHandled wheels req with
  | ReturnsTrue =>
      ({| response := written;
          escaped := match out with Uncaught => true | _ => false end |}, wheels')
  | Rejects => ({| response := written; escaped := true |}, wheels')
  | _ =>
      match tryServeStatic req written publicDir with
      | Throws => ({| response := written; escaped := true |}, wheels')
      | Returns (true, res) => ({| response := res; escaped := false |}, wheels')
      | Returns (false, res) =>
          match writeHead res 404 "text/plain; charset=utf-8" with
          | Throws => ({| response := res; escaped := true |}, wheels')
          | Returns res' =>
              ({| response := end_ res' (Text "Not found"); escaped := false |},
               wheels')
          end
      end
  end.

End Files.

End Static.

(** ** A sample site *)

Module Scenario.

(** Paths without escapes and without dots to resolve: decoding and
    resolving leave them as they are and joining puts them one after the
    other. *)
Definition decodeURI (s : string) : option string := Some s.
Definition join (a b : string) : string := a ++ b.
Definition resolve (p : string) : string := p.

(** The public directory holds index.html and nothing else. *)
Definition publicDir : string := "/srv/public".

Definition fs (p : string) : option Static.node :=
  if String.eqb p "/srv/public/" then Some Static.Directory
  else if String.eqb p "/srv/public/index.html"
       then Some (Static.File (Some "<!doctype html>"))
       else None.

Definition extname (p : string) : string :=
  if String.eqb p "/srv/public/index.html" then ".html" else "".

Definition listener : env -> gmap string Wheel.t -> request
                      -> Static.served * gmap string Wheel.t :=
  Static.listener decodeURI join resolve extname fs publicDir
                  Sample.StringToNumber Sample.ObjectToNumber.

Definition handleApi : env -> gmap string Wheel.t -> request
                       -> outcome * gmap string Wheel.t :=
  Server.handleApi Sample.StringToNumber Sample.ObjectToNumber.

(** A create, a spin of the wheel it stores, a spin with a blank name and a
    spin of a wheel that is not there. *)
Definition requests : list (env * request) :=
  [ (Sample.E, Sample.create Sample.entries);
    (Sample.E, Sample.spin_request "k3x9q2mz" (Sample.participant "Ann" "555-1"));
    (Sample.E, Sample.spin_request "k3x9q2mz" (Sample.participant "  " "555-2"));
    (Sample.E, Sample.spin_request "nowheel" (Sample.participant "Bob" "555-3")) ].

End Scenario.

(** * Properties *)

Section Doubles.

Local Open Scope float_scope.

Implicit Types (x y r c w : float).

Lemma SFcompare_antisym (a b : spec_float) :
  SFcompare b a = option_map CompOpp (SFcompare a b).
Proof.
  destruct a as [[]| [] | |[] m1 e1], b as [[]|[]| |[] m2 e2]; try reflexivity.
  all: simpl; rewrite (Z.compare_antisym e1 e2);
    destruct (e1 ?= e2)%Z; simpl; try reflexivity.
  all: rewrite (Pos.compare_cont_antisym m1 m2 Eq); simpl;
    by destruct (Pos.compare_cont Eq m1 m2).
Qed.

Lemma SFcompare_refl (a : spec_float) :
  a <> S754_nan -> SFcompare a a = Some Eq.
Proof.
  destruct a as [[]|[]| |[] m e]; try done; intros _; simpl.
  all: rewrite Z.compare_refl; fold (Pos.compare m m); by rewrite Pos.compare_refl.
Qed.

Lemma SFcompare_None (a b : spec_float) :
  SFcompare a b = None <-> a = S754_nan \/ b = S754_nan.
Proof.
  destruct a as [[]|[]| |[] m1 e1], b as [[]|[]| |[] m2 e2]; simpl;
    split; try done; try (intros [|]; done); auto.
Qed.

Lemma SFcompare_le_lt_trans (a b c : spec_float) :
  (SFcompare a b = Some Lt \/ SFcompare a b = Some Eq) ->
  SFcompare b c = Some Lt -> SFcompare a c = Some Lt.
Proof.
  destruct a as [[]|[]| |[] m1 e1], b as [[]|[]| |[] m2 e2], c as [[]|[]| |[] m3 e3];
    simpl; try (intros [|]; done); try done.
  all: intros Hab Hbc; f_equal.
  all: destruct (Z.compare_spec e1 e2), (Z.compare_spec e2 e3), (Z.compare_spec e1 e3);
    try lia; try (destruct Hab; done); try done.
  all: fold (Pos.compare m1 m2) in *; fold (Pos.compare m2 m3) in *;
    fold (Pos.compare m1 m3) in *.
  all: destruct (Pos.compare_spec m1 m2), (Pos.compare_spec m2 m3),
    (Pos.compare_spec m1 m3); try lia; try (destruct Hab; done); try done.
Qed.

Lemma is_nan_spec x : is_nan x = true <-> Prim2SF x = S754_nan.
Proof.
  unfold is_nan. rewrite FloatAxioms.eqb_spec. unfold SFeqb. split.
  - intros H. destruct (Prim2SF x) eqn:Hx; try done.
    all: rewrite SFcompare_refl in H; done.
  - by intros ->.
Qed.

Lemma is_nan_false x : is_nan x = false <-> Prim2SF x <> S754_nan.
Proof. rewrite <- is_nan_spec. by destruct (is_nan x). Qed.

(** [c <= r] excludes [r < c]. *)
Lemma leb_not_ltb c r : (c <=? r) = true -> (r <? c) = false.
Proof.
  rewrite FloatAxioms.leb_spec, FloatAxioms.ltb_spec. unfold SFleb, SFltb.
  rewrite (SFcompare_antisym (Prim2SF c) (Prim2SF r)).
  by destruct (SFcompare (Prim2SF c) (Prim2SF r)) as [[]|].
Qed.

(** Of two numbers that are not NaN, [r < c] fails only if [c <= r]. *)
Lemma not_ltb_leb c r :
  is_nan c = false -> is_nan r = false -> (r <? c) = false -> (c <=? r) = true.
Proof.
  rewrite !is_nan_false, FloatAxioms.leb_spec, FloatAxioms.ltb_spec.
  unfold SFleb, SFltb.
  intros Hc Hr. rewrite (SFcompare_antisym (Prim2SF c) (Prim2SF r)).
  destruct (SFcompare (Prim2SF c) (Prim2SF r)) as [[]|] eqn:H; try done.
  apply SFcompare_None in H as [|]; done.
Qed.

(** NaN is neither below nor above a number. *)
Lemma ltb_not_nan r c : (r <? c) = true -> is_nan r = false /\ is_nan c = false.
Proof.
  rewrite FloatAxioms.ltb_spec, !is_nan_false. unfold SFltb.
  destruct (SFcompare (Prim2SF r) (Prim2SF c)) as [[]|] eqn:H; try done.
  intros _. split; intros Hn; rewrite Hn in H; simpl in H; try done.
  by destruct (Prim2SF r).
Qed.

Lemma leb_not_nan r c : (r <=? c) = true -> is_nan r = false /\ is_nan c = false.
Proof.
  rewrite FloatAxioms.leb_spec, !is_nan_false. unfold SFleb.
  destruct (SFcompare (Prim2SF r) (Prim2SF c)) as [[]|] eqn:H; try done.
  all: intros _; split; intros Hn; rewrite Hn in H; simpl in H; try done.
  all: by destruct (Prim2SF r).
Qed.

(** [r <= r'] and [r' < c] give [r < c]. *)
Lemma leb_ltb_trans r r' c :
  (r <=? r') = true -> (r' <? c) = true -> (r <? c) = true.
Proof.
  rewrite FloatAxioms.leb_spec, !FloatAxioms.ltb_spec. unfold SFleb, SFltb.
  intros H1 H2.
  rewrite (SFcompare_le_lt_trans (Prim2SF r) (Prim2SF r') (Prim2SF c)); [done| |].
  - destruct (SFcompare (Prim2SF r) (Prim2SF r')) as [[]|]; auto; done.
  - destruct (SFcompare (Prim2SF r') (Prim2SF c)) as [[]|]; auto; done.
Qed.

(** [NaN + w] is NaN. *)
Lemma add_nan_l c w : is_nan c = true -> is_nan (c + w) = true.
Proof. rewrite !is_nan_spec, FloatAxioms.add_spec. by intros ->. Qed.

(** [0 + w] is [w] for a positive number. *)
Lemma add_zero_l w : (0 <? w) = true -> 0 + w = w.
Proof.
  intros H. apply Prim2SF_inj. rewrite FloatAxioms.add_spec.
  rewrite FloatAxioms.ltb_spec in H. unfold SFltb in H.
  change (Prim2SF 0) with (S754_zero false) in *.
  by destruct (Prim2SF w) as [[]|[]| |[] m e].
Qed.

Lemma is_finite_not_nan x : is_finite x = true -> is_nan x = false.
Proof. unfold is_finite. by destruct (is_nan x). Qed.

(** A finite number is positive when the test [w <= 0] fails. *)
Lemma positive_weight w :
  is_finite w = true -> (w <=? 0) = false <-> (0 <? w) = true.
Proof.
  intros Hf. apply is_finite_not_nan in Hf. split.
  - intros H. destruct (0 <? w) eqn:Hlt; [done|].
    rewrite (not_ltb_leb w 0) in H; done.
  - intros H. destruct (w <=? 0) eqn:Hle; [|done].
    apply leb_not_ltb in Hle. congruence.
Qed.

End Doubles.

Section Selection.

Local Open Scope float_scope.

Implicit Types (options : list wheel_option) (r c : float).

(** The reduction of [totalWeight] from the sum [c] on. *)
Local Abbreviation sum_from c options :=
  (fold_left (fun sum opt => sum + weight opt) options c).

Lemma cumulative_before_O options : cumulative_before options 0 = 0.
Proof. unfold cumulative_before. by rewrite take_0. Qed.

Lemma cumulative_before_all options :
  cumulative_before options (length options) = totalWeight options.
Proof. unfold cumulative_before. by rewrite firstn_all. Qed.

(** The running sums are those of the loop: each is the one before it plus
    the weight of the option between them, rounded. *)
Lemma cumulative_before_S options i o :
  options !! i = Some o ->
  cumulative_before options (S i) = cumulative_before options i + weight o.
Proof.
  intros Hi. unfold cumulative_before, totalWeight.
  rewrite (take_S_r _ _ _ Hi), fold_left_app. reflexivity.
Qed.

(** The loop stops at the first iteration whose running sum exceeds [r]. *)
Lemma walk_hit options : forall r c chosen,
  options <> [] -> (r <? sum_from c options) = true ->
  exists i o, options !! i = Some o /\ walk options r c chosen = Some o
    /\ (r <? sum_from c (take (S i) options)) = true
    /\ forall j, (j < i)%nat -> (r <? sum_from c (take (S j) options)) = false.
Proof.
  induction options as [|o l IH]; intros r c chosen Hne Hr; [done|].
  simpl. destruct (r <? c + weight o) eqn:Hlt.
  - exists 0%nat, o. rewrite take_0. simpl. repeat split; [done|].
    intros j Hj. lia.
  - destruct l as [|o1 l]; [simpl in Hr; congruence|].
    destruct (IH r (c + weight o) chosen ltac:(done) Hr)
      as (i & o' & Hi & Hw & Hhit & Hfirst).
    exists (S i), o'. repeat split; [done|done|exact Hhit|].
    intros [|j] Hj; [by rewrite take_0|].
    apply (Hfirst j). lia.
Qed.

(** The loop leaves [chosen] as it was when no running sum exceeds [r]. *)
Lemma walk_miss options : forall r c chosen,
  (forall j, (j < length options)%nat ->
     (r <? sum_from c (take (S j) options)) = false) ->
  walk options r c chosen = chosen.
Proof.
  induction options as [|o l IH]; intros r c chosen Hall; [done|].
  simpl. pose proof (Hall 0%nat ltac:(simpl; lia)) as H0.
  simpl in H0. rewrite H0.
  apply IH. intros j Hj. apply (Hall (S j)). simpl. lia.
Qed.

Lemma walk_elem options : forall r c chosen o,
  walk options r c chosen = Some o -> o ∈ options \/ chosen = Some o.
Proof.
  induction options as [|o' l IH]; intros r c chosen o H; [by right|].
  simpl in H. destruct (r <? c + weight o').
  - injection H as <-. left. set_solver.
  - destruct (IH _ _ _ _ H); [left; set_solver | by right].
Qed.

Lemma walk_is_Some options : forall r c chosen,
  is_Some chosen -> is_Some (walk options r c chosen).
Proof.
  induction options as [|o l IH]; intros r c chosen H; [done|].
  simpl. destruct (r <? c + weight o); [by eexists | by apply IH].
Qed.

(** With a draw below the total weight the loop selects the first option
    whose running sum exceeds the draw. *)
Lemma choose_in_range options r :
  options <> [] -> (r <? totalWeight options) = true ->
  exists i o, options !! i = Some o /\ choose options r = Some o
    /\ (r <? cumulative_before options (S i)) = true
    /\ forall j, (j < i)%nat -> (r <? cumulative_before options (S j)) = false.
Proof.
  intros Hne Hr. exact (walk_hit options r 0 (head options) Hne Hr).
Qed.

(** A running sum that a draw is below is no NaN, and neither is the one
    before it. *)
Lemma below_sum_not_nan options r i o :
  options !! i = Some o ->
  (r <? cumulative_before options (S i)) = true ->
  is_nan (cumulative_before options i) = false.
Proof.
  intros Hi Hlt. rewrite (cumulative_before_S _ _ _ Hi) in Hlt.
  apply ltb_not_nan in Hlt as [_ Hn].
  destruct (is_nan (cumulative_before options i)) eqn:Hc; [|done].
  by rewrite (add_nan_l _ (weight o) Hc) in Hn.
Qed.

(** C2 (as amended).  When the draw [r] is not less than any of the
    running sums that the loop compares it with (which implies that it is
    not less than [totalWeight]), the loop ends without a match and the
    option chosen is the _first_ one of the sequence, the value that
    [chosen] was initialised with; and for every draw the selection on a
    non-empty sequence returns one of its options.  The loop tests
    [r < cumulative]: it ends without a match when every running sum is at
    most [r], and also when the test fails on a NaN. *)
Theorem choose_falls_back_to_first options r :
  options <> [] ->
  (exists o, choose options r = Some o /\ o ∈ options)
  /\ ((forall j, (j < length options)%nat ->
         (cumulative_before options (S j) <=? r) = true) ->
      (totalWeight options <=? r) = true /\ choose options r = head options)
  /\ ((forall j, (j < length options)%nat ->
         (r <? cumulative_before options (S j)) = false) ->
      (r <? totalWeight options) = false /\ choose options r = head options).
Proof.
  intros Hne. destruct options as [|o0 l]; [done|]. split; [|split].
  - destruct (walk_is_Some (o0 :: l) r 0 (Some o0)) as [o Ho]; [by eexists|].
    exists o. split; [exact Ho|].
    destruct (walk_elem _ _ _ _ _ Ho) as [|[= ->]]; [done|set_solver].
  - intros Hall. split.
    + rewrite <- cumulative_before_all.
      apply (Hall (length l)). simpl. lia.
    + unfold choose. apply walk_miss. intros j Hj.
      apply leb_not_ltb. exact (Hall j Hj).
  - intros Hall. split.
    + rewrite <- cumulative_before_all.
      apply (Hall (length l)). simpl. lia.
    + unfold choose. apply walk_miss. exact Hall.
Qed.

(** C3 (as amended).  For a non-empty sequence of options with positive
    weights and a draw [0 <= r < totalWeight], the loop returns the first
    option, in stored order, whose half-open interval
    [cumulative, cumulative + weight) holds [r], where [cumulative] is the
    running sum as the loop computes it, each addition rounded to a double:
    [r] is at or above every running sum before that option and below the
    one after it.  A draw of 0 selects the first option, and a draw below
    [totalWeight] that is at or above every running sum before the last
    option selects the last option. *)
Theorem choose_selects_interval options r :
  options <> [] ->
  Forall (fun o => Js.positive (weight o)) options ->
  (0 <=? r) = true -> (r <? totalWeight options) = true ->
  (exists i o, options !! i = Some o /\ choose options r = Some o
     /\ (cumulative_before options i <=? r) = true
     /\ (r <? cumulative_before options i + weight o) = true
     /\ (forall j, (j < i)%nat -> (cumulative_before options (S j) <=? r) = true)
     /\ (forall j o', (j < i)%nat -> options !! j = Some o' ->
           (r <? cumulative_before options j + weight o') = false))
  /\ ((r <=? 0) = true -> choose options r = head options)
  /\ (forall o, last options = Some o ->
        (forall j, (S j < length options)%nat ->
           (cumulative_before options (S j) <=? r) = true) ->
        choose options r = Some o).
Proof.
  intros Hne Hpos H0 Hr.
  destruct (choose_in_range options r Hne Hr) as (i & o & Hi & Hc & Hhit & Hfirst).
  pose proof (leb_not_nan _ _ H0) as [_ Hrn].
  assert (Hbefore : forall j, (j < i)%nat ->
            (cumulative_before options (S j) <=? r) = true).
  { intros j Hj.
    destruct (lookup_lt_is_Some_2 options (S j)) as [o' Ho'].
    { apply lookup_lt_Some in Hi. lia. }
    apply not_ltb_leb; [|done|by apply Hfirst].
    destruct (decide (S j = i)) as [<-|Hne'].
    - exact (below_sum_not_nan _ _ _ _ Hi Hhit).
    - pose proof (Hfirst (S j) ltac:(lia)) as Hmiss.
      destruct (is_nan (cumulative_before options (S j))) eqn:Hn; [|done].
      exfalso.
      assert (Hnan : forall k, (S j <= k)%nat -> (k <= S i)%nat ->
                is_nan (cumulative_before options k) = true).
      { intros k Hk1 Hk2. induction Hk1 as [|k Hk1 IHk]; [done|].
        destruct (lookup_lt_is_Some_2 options k) as [ok Hok].
        { apply lookup_lt_Some in Hi. lia. }
        rewrite (cumulative_before_S _ _ _ Hok). apply add_nan_l, IHk. lia. }
      apply ltb_not_nan in Hhit as [_ Hhit].
      rewrite Hnan in Hhit; [done|lia|lia]. }
  split; [|split].
  - exists i, o. repeat split; [done|done| | |done|].
    + destruct i as [|i]; [by rewrite cumulative_before_O|].
      apply Hbefore. lia.
    + by rewrite <- (cumulative_before_S _ _ _ Hi).
    + intros j o' Hj Ho'. rewrite <- (cumulative_before_S _ _ _ Ho').
      by apply Hfirst.
  - intros Hz. destruct options as [|o0 l]; [done|].
    apply Forall_cons in Hpos as [[_ Hp] _].
    unfold choose. simpl. rewrite (add_zero_l _ Hp).
    by rewrite (leb_ltb_trans r 0 (weight o0) Hz Hp).
  - intros ol Hlast Hall. rewrite last_lookup in Hlast.
    assert (i = Init.Nat.pred (length options)) as ->; [|congruence].
    apply lookup_lt_Some in Hi as Hlen.
    destruct (decide (i = Init.Nat.pred (length options))) as [|Hne']; [done|].
    pose proof (Hall i ltac:(lia)) as Hle.
    apply leb_not_ltb in Hle. congruence.
Qed.

End Selection.

Section Identifiers.

Lemma substring_all_chars p s : forall n m,
  all_chars p s = true -> all_chars p (substring n m s) = true.
Proof.
  induction s as [|c s IH]; intros n m H.
  - by destruct n, m.
  - simpl in H. apply andb_true_iff in H as [Hc Hs].
    destruct n as [|n]; [destruct m as [|m]|]; simpl; [done| |by apply IH].
    rewrite Hc. by apply IH.
Qed.

Lemma substring_length_le s : forall m, (String.length (substring 0 m s) <= m)%nat.
Proof.
  induction s as [|c s IH]; intros [|m]; simpl; try lia.
  specialize (IH m). lia.
Qed.

(** What [generateId] returns: at most eight digits among 0-9 and a-z. *)
Lemma generateId_base36 rendered :
  radix36 rendered = true -> is_base36_id (generateId rendered) = true.
Proof.
  unfold radix36, generateId, is_base36_id. intros H.
  destruct rendered as [|c0 [|c1 digits]]; try discriminate.
  - reflexivity.
  - destruct (Ascii.eqb_spec c0 "0"%char) as [->|]; [|by destruct c0 as [[] [] [] [] [] [] [] []]].
    destruct (Ascii.eqb_spec c1 "."%char) as [->|]; [|by destruct c1 as [[] [] [] [] [] [] [] []]].
    apply andb_true_iff. split.
    + apply Nat.leb_le. simpl. apply substring_length_le.
    + simpl. by apply substring_all_chars.
Qed.

(** No name of [Object.prototype] is such an identifier. *)
Lemma base36_not_inherited id :
  is_base36_id id = true -> id ∉ Object_prototype.
Proof.
  intros H Hin. unfold Object_prototype in Hin.
  repeat (apply elem_of_cons in Hin as [->|Hin]; [discriminate H|]).
  by apply elem_of_nil in Hin.
Qed.

Lemma base36_digit_is_id_char c :
  is_base36_digit c = true -> is_id_char c = true.
Proof.
  unfold is_base36_digit, is_id_char. intros H.
  apply orb_true_iff in H as [H|H]; apply andb_true_iff in H as [-> ->];
    rewrite ?orb_true_r; reflexivity.
Qed.

Lemma base36_id_chars id :
  is_base36_id id = true -> all_chars is_id_char id = true.
Proof.
  unfold is_base36_id. intros H. apply andb_true_iff in H as [_ H].
  induction id as [|c id IH]; [done|]. simpl in *.
  apply andb_true_iff in H as [Hc H].
  by rewrite (base36_digit_is_id_char _ Hc), IH.
Qed.

Lemma span_all p s : all_chars p s = true -> span p s = (s, "").
Proof.
  induction s as [|c s IH]; [done|]. simpl. intros H.
  apply andb_true_iff in H as [-> H]. by rewrite (IH H).
Qed.

(** The describe pattern captures an identifier written after /api/wheel/. *)
Lemma match_wheel_id id :
  id <> "" -> all_chars is_id_char id = true ->
  match_wheel "" ("/api/wheel/" ++ id) = Some id.
Proof.
  intros Hne Hall. unfold match_wheel.
  change (strip_prefix "/api/wheel/" ("/api/wheel/" ++ id)) with (Some id).
  cbv beta iota. rewrite (span_all _ _ Hall). by destruct id.
Qed.

Lemma occupied_false wheels id :
  occupied wheels id = false <-> wheels !! id = None /\ id ∉ Object_prototype.
Proof.
  unfold occupied, wheels_get. destruct (wheels !! id) as [w|].
  - split; [discriminate|]. by intros [? _].
  - case_bool_decide as Hin; split; try done. by intros [_ ?].
Qed.

Lemma occupied_stored wheels id :
  is_Some (wheels !! id) -> occupied wheels id = true.
Proof. intros [w Hw]. unfold occupied, wheels_get. by rewrite Hw. Qed.

Lemma wheels_get_stored wheels id w :
  wheels_get wheels id = Stored w <-> wheels !! id = Some w.
Proof.
  unfold wheels_get. destruct (wheels !! id) as [w'|].
  - split; congruence.
  - case_bool_decide; split; discriminate.
Qed.

Section Allocation.

Variable E : env.
Variable wheels : gmap string Wheel.t.

Local Abbreviation attempt i := (generateId (random36 E i)).

Lemma allocate_attempts : forall retries i,
  (i < snd (Server.allocate E wheels i retries) <= i + S retries)%nat.
Proof.
  induction retries as [|retries IH]; intros i; simpl;
    destruct (occupied wheels _); simpl; try lia.
  specialize (IH (S i)). lia.
Qed.

Lemma allocate_generated : forall retries i,
  fst (Server.allocate E wheels i retries)
  = attempt (Init.Nat.pred (snd (Server.allocate E wheels i retries))).
Proof.
  induction retries as [|retries IH]; intros i; simpl;
    destruct (occupied wheels _); simpl; try reflexivity.
  apply IH.
Qed.

(** The loop stops at the first identifier that is free. *)
Lemma allocate_first_free : forall retries i k,
  (i <= k <= i + retries)%nat ->
  (forall j, (i <= j < k)%nat -> occupied wheels (attempt j) = true) ->
  occupied wheels (attempt k) = false ->
  Server.allocate E wheels i retries = (attempt k, S k).
Proof.
  induction retries as [|retries IH]; intros i k Hk Hbefore Hfree.
  - assert (k = i) as -> by lia. simpl. by rewrite Hfree.
  - simpl. destruct (decide (k = i)) as [->|Hne].
    + by rewrite Hfree.
    + rewrite (Hbefore i) by lia. apply IH; [lia| |done].
      intros j Hj. apply Hbefore. lia.
Qed.

(** When every identifier is taken the loop ends with the last one. *)
Lemma allocate_exhausted : forall retries i,
  (forall j, (i <= j <= i + retries)%nat -> occupied wheels (attempt j) = true) ->
  Server.allocate E wheels i retries = (attempt (i + retries), S (i + retries)).
Proof.
  induction retries as [|retries IH]; intros i Hall.
  - simpl. rewrite (Hall i) by lia. by rewrite Nat.add_0_r.
  - simpl. rewrite (Hall i) by lia.
    rewrite IH; [by rewrite Nat.add_succ_r|].
    intros j Hj. apply Hall. lia.
Qed.

End Allocation.

End Identifiers.

Section ServerProperties.

Import Server.

Variable StringToNumber : Js.jsstr -> Js.number.
Variable ObjectToNumber : Js.value -> Js.result Js.number.

Local Abbreviation Number := (Js.Number StringToNumber ObjectToNumber).
Local Abbreviation sanitise := (Server.sanitise StringToNumber ObjectToNumber).
Local Abbreviation createWheel := (Server.createWheel StringToNumber ObjectToNumber).
Local Abbreviation handleApi := (Server.handleApi StringToNumber ObjectToNumber).
Local Abbreviation readable := (Server.readable StringToNumber ObjectToNumber).
Local Abbreviation invalid_entry := (Server.invalid_entry StringToNumber ObjectToNumber).
Local Abbreviation stored_as := (Server.stored_as StringToNumber ObjectToNumber).

(** *** Routing *)

Lemma match_wheel_any_tail tail pathname id :
  match_wheel tail pathname = Some id -> match_wheel "" pathname = Some id.
Proof.
  unfold match_wheel.
  destruct (strip_prefix "/api/wheel/" pathname) as [rest|]; [|discriminate].
  destruct (span is_id_char rest) as [run after].
  destruct run as [|c run]; [discriminate|].
  destruct (strip_prefix tail after); [|discriminate].
  intros [= <-]. reflexivity.
Qed.

Lemma match_wheel_not_create tail pathname id :
  match_wheel tail pathname = Some id -> String.eqb pathname "/api/wheels" = false.
Proof.
  intros H. destruct (String.eqb_spec pathname "/api/wheels") as [->|]; [|done].
  unfold match_wheel in H. simpl in H. discriminate.
Qed.

Lemma handleApi_get E wheels p b id :
  match_wheel "" p = Some id ->
  handleApi E wheels {| method := "GET"; pathname := p; body := b |}
  = (describeWheel wheels id, wheels).
Proof. intros H. unfold handleApi. simpl. rewrite H. reflexivity. Qed.

Lemma handleApi_spin E wheels p b id :
  match_wheel "/spin" p = Some id ->
  handleApi E wheels {| method := "POST"; pathname := p; body := b |}
  = spin E wheels id b.
Proof.
  intros H. unfold handleApi. simpl.
  rewrite (match_wheel_not_create _ _ _ H), H. simpl.
  destruct (match_wheel "" p); reflexivity.
Qed.

Lemma handleApi_create E wheels b :
  handleApi E wheels {| method := "POST"; pathname := "/api/wheels"; body := b |}
  = createWheel E wheels b.
Proof. reflexivity. Qed.

(** C1 (defect).  A GET whose path matches the list-results pattern
    /api/wheel/:id/results is answered by the describe route, which is
    tested first and whose pattern, not anchored at its end, matches the
    same path with the same identifier: the answer carries the options of
    the wheel, never its results. *)
Theorem results_route_answers_describe E wheels p b id :
  match_wheel "/results" p = Some id ->
  handleApi E wheels {| method := "GET"; pathname := p; body := b |}
  = (describeWheel wheels id, wheels).
Proof.
  intros H. apply handleApi_get. exact (match_wheel_any_tail _ _ _ H).
Qed.

(** *** Validation of the submitted options *)

Lemma checked_option_Some l n o :
  checked_option l n = Some o <->
  l <> [] /\ n = weight o /\ Js.positive (weight o) /\ label o = l.
Proof.
  unfold checked_option, Js.positive. split.
  - destruct l as [|c l]; [discriminate|].
    destruct (is_finite n) eqn:Hf; [|discriminate].
    destruct (n <=? 0)%float eqn:Hle; [discriminate|].
    intros [= <-]. simpl. repeat split; [done|done|].
    by apply positive_weight.
  - intros (Hl & -> & [Hf Hpos] & <-). destruct o as [l n]. simpl in *.
    destruct l as [|c l]; [done|].
    apply (positive_weight _ Hf) in Hpos. by rewrite Hf, Hpos.
Qed.

Lemma sanitise_cons opt rest acc l w n :
  Js.get opt "label" = Js.Ok l -> Js.get opt "weight" = Js.Ok w ->
  Number w = Js.Ok n ->
  sanitise (opt :: rest) acc
  = match checked_option (Js.trimmed_string l) n with
    | None => Js.Ok None
    | Some o => sanitise rest (acc ++ [o])
    end.
Proof. intros Hl Hw Hn. simpl. rewrite Hl. simpl. rewrite Hw. simpl. rewrite Hn. reflexivity. Qed.

Lemma sanitise_inv opt rest acc options :
  sanitise (opt :: rest) acc = Js.Ok (Some options) ->
  exists l w n o, Js.get opt "label" = Js.Ok l /\ Js.get opt "weight" = Js.Ok w
    /\ Number w = Js.Ok n /\ checked_option (Js.trimmed_string l) n = Some o
    /\ sanitise rest (acc ++ [o]) = Js.Ok (Some options).
Proof.
  intros H. simpl in H.
  destruct (Js.get opt "label") as [l|] eqn:Hl; [|discriminate]. simpl in H.
  destruct (Js.get opt "weight") as [w|] eqn:Hw; [|discriminate]. simpl in H.
  destruct (Number w) as [n|] eqn:Hn; [|discriminate]. simpl in H.
  destruct (checked_option (Js.trimmed_string l) n) as [o|] eqn:Ho; [|discriminate].
  by exists l, w, n, o.
Qed.

Lemma stored_as_checked opt o l w n :
  Js.get opt "label" = Js.Ok l -> Js.get opt "weight" = Js.Ok w ->
  Number w = Js.Ok n ->
  checked_option (Js.trimmed_string l) n = Some o <-> stored_as opt o.
Proof.
  intros Hl Hw Hn. rewrite checked_option_Some. split.
  - intros (Hne & -> & Hpos & Hlab).
    destruct l as [| | | |s| |]; simpl in *; try done.
    exists s, w. rewrite <- Hlab in Hne. destruct Hpos. by repeat split.
  - intros (s & w' & Hl' & Hlab & Hne & Hw' & Hn' & Hpos).
    rewrite Hl in Hl'. injection Hl' as ->.
    rewrite Hw in Hw'. injection Hw' as <-.
    rewrite Hn in Hn'. injection Hn' as ->.
    simpl. rewrite <- Hlab. destruct Hpos. by repeat split.
Qed.

(** The loop accepts exactly the sequences of valid entries, and returns
    them as they are stored, in their order. *)
Lemma sanitise_Some entries : forall acc options,
  sanitise entries acc = Js.Ok (Some options) <->
  exists new, options = acc ++ new /\ Forall2 stored_as entries new.
Proof.
  induction entries as [|opt rest IH]; intros acc options.
  - simpl. split.
    + intros [= <-]. exists []. by rewrite app_nil_r.
    + intros (new & -> & Hnew). apply Forall2_nil_inv_l in Hnew as ->.
      by rewrite app_nil_r.
  - split.
    + intros H. apply sanitise_inv in H as (l & w & n & o & Hl & Hw & Hn & Ho & H).
      apply IH in H as (new & -> & Hnew).
      exists (o :: new). split; [by rewrite <- app_assoc|].
      constructor; [|done]. by apply (stored_as_checked opt o l w n).
    + intros (new & -> & Hnew).
      apply Forall2_cons_inv_l in Hnew as (o & new' & Ho & Hnew' & ->).
      pose proof Ho as (s & w & Hl & _ & _ & Hw & Hn & _).
      rewrite (sanitise_cons _ _ _ _ _ _ Hl Hw Hn).
      apply (stored_as_checked opt o _ w _ Hl Hw Hn) in Ho. rewrite Ho.
      apply IH. exists new'. split; [by rewrite <- app_assoc|done].
Qed.

Lemma invalid_entry_refused opt l w n :
  invalid_entry opt ->
  Js.get opt "label" = Js.Ok l -> Js.get opt "weight" = Js.Ok w ->
  Number w = Js.Ok n ->
  checked_option (Js.trimmed_string l) n = None.
Proof.
  intros (l' & w' & Hl' & Hw' & Hbad) Hl Hw Hn.
  rewrite Hl in Hl'. injection Hl' as <-.
  rewrite Hw in Hw'. injection Hw' as <-.
  destruct (checked_option (Js.trimmed_string l) n) as [o|] eqn:Ho; [|done].
  apply checked_option_Some in Ho as (Hne & -> & Hpos & _).
  destruct Hbad as [Hempty|Hbad]; [done|]. by destruct (Hbad _ Hn).
Qed.

Lemma sanitise_rejects entries : forall acc,
  Forall readable entries -> Exists invalid_entry entries ->
  sanitise entries acc = Js.Ok None.
Proof.
  induction entries as [|opt rest IH]; intros acc Hread Hbad.
  - by apply Exists_nil in Hbad.
  - apply Forall_cons in Hread as [(l & w & n & Hl & Hw & Hn) Hread].
    rewrite (sanitise_cons _ _ _ _ _ _ Hl Hw Hn).
    destruct (checked_option (Js.trimmed_string l) n) as [o|] eqn:Ho; [|done].
    apply Exists_cons in Hbad as [Hbad|Hbad].
    + rewrite (invalid_entry_refused _ _ _ _ Hbad Hl Hw Hn) in Ho. discriminate.
    + by apply IH.
Qed.

Lemma submits_options_array payload entries :
  submits payload entries -> entries <> [] ->
  options_array payload = Some entries.
Proof.
  intros (fields & -> & Hopt) Hne. unfold options_array. simpl. rewrite Hopt.
  by destruct entries.
Qed.

Lemma stored_as_not_invalid opt o : stored_as opt o -> ~ invalid_entry opt.
Proof.
  intros (s & w & Hl & Hlab & Hne & Hw & Hn & Hpos) (l' & w' & Hl' & Hw' & Hbad).
  rewrite Hl in Hl'. injection Hl' as <-.
  rewrite Hw in Hw'. injection Hw' as <-.
  destruct Hbad as [Hempty|Hbad].
  - simpl in Hempty. congruence.
  - exact (Hbad _ Hn Hpos).
Qed.

Lemma sanitise_invalid entries acc options :
  Exists invalid_entry entries -> sanitise entries acc <> Js.Ok (Some options).
Proof.
  intros Hbad Hs. apply sanitise_Some in Hs as (new & _ & Hnew).
  induction Hnew as [|e o es os Ho _ IH]; [by apply Exists_nil in Hbad|].
  apply Exists_cons in Hbad as [Hbad|Hbad]; [|by apply IH].
  by apply (stored_as_not_invalid e o).
Qed.

(** When the submitted sequence of options holds an entry whose label is
    empty after trimming (or is no string) or whose weight does not coerce to
    a finite positive number, the store after the create is the store before
    it: no wheel is inserted.  The answer is 400 with the validation message,
    provided the entries can be read: none of them is [null] and [Number]
    returns on their weights. *)
Lemma create_rejects_invalid_entry E wheels payload entries :
  submits payload entries ->
  Exists invalid_entry entries ->
  snd (handleApi E wheels
         {| method := "POST"; pathname := "/api/wheels"; body := Some payload |})
  = wheels
  /\ (Forall readable entries ->
      handleApi E wheels
        {| method := "POST"; pathname := "/api/wheels"; body := Some payload |}
      = (Sent 400 (ErrorBody
           "Each option must contain a non-empty label and a positive numeric weight"),
         wheels)).
Proof.
  intros Hsub Hbad. rewrite handleApi_create. unfold Server.createWheel.
  rewrite (submits_options_array _ _ Hsub);
    [|intros ->; by apply Exists_nil in Hbad].
  split.
  - pose proof (sanitise_invalid entries [] ) as Hno.
    destruct (sanitise entries []) as [[options|]|]; try done.
    by destruct (Hno options Hbad).
  - intros Hread. by rewrite (sanitise_rejects _ _ Hread Hbad).
Qed.

(** C4 (defect).  A create whose options hold [null] and, after it, an
    entry with an empty label is not answered with the validation message,
    although it submits an entry that the validation refuses: the loop reads
    [opt.label] on [null] first, the TypeError leaves the callback and
    nothing is sent.  The store is left as it was. *)
Theorem create_null_before_invalid_entry_throws E wheels :
  Exists invalid_entry [Js.Null; Sample.entry "" 1%float]
  /\ handleApi E wheels (Sample.create [Js.Null; Sample.entry "" 1%float])
     = (Uncaught, wheels).
Proof.
  split; [|reflexivity].
  apply Exists_cons_tl, Exists_cons_hd.
  exists (Js.Str []), (Js.Num 1%float). repeat split. by left.
Qed.

(** *** Create *)

Lemma createWheel_valid E wheels payload entries options :
  submits payload entries -> entries <> [] ->
  Forall2 stored_as entries options ->
  createWheel E wheels (Some payload)
  = let id := fst (allocate E wheels 0 4) in
    if occupied wheels id then
      (Sent 500 (ErrorBody "Could not allocate id"), wheels)
    else
      (Sent 201 (CreatedBody id ("/wheel.html?id=" ++ id) ("/results.html?id=" ++ id)),
       <[id := {| Wheel.id := id; Wheel.options := options; Wheel.results := [] |}]> wheels).
Proof.
  intros Hsub Hne Hvalid. unfold Server.createWheel.
  rewrite (submits_options_array _ _ Hsub Hne).
  assert (sanitise entries [] = Js.Ok (Some options)) as ->; [|reflexivity].
  apply sanitise_Some. by exists options.
Qed.

(** C5.  For a sequence of valid entries, stored as [options] (each label
    trimmed, each weight coerced, in the order submitted), a create that
    succeeds yields an identifier that was no key of the store and puts
    under it the wheel of these options with no results; describe on that
    identifier then returns these options: as the block of the route, and
    through the path /api/wheel/<id> whenever the identifier, cut out of
    the radix-36 rendering of a draw, is not the empty string. *)
Theorem create_then_describe E wheels payload entries options id link resultsLink wheels' :
  submits payload entries -> entries <> [] ->
  Forall2 stored_as entries options ->
  handleApi E wheels
    {| method := "POST"; pathname := "/api/wheels"; body := Some payload |}
  = (Sent 201 (CreatedBody id link resultsLink), wheels') ->
  wheels !! id = None
  /\ wheels' = <[id := {| Wheel.id := id; Wheel.options := options;
                          Wheel.results := [] |}]> wheels
  /\ describeWheel wheels' id = Sent 200 (WheelBody (Some id) (Some options))
  /\ ((forall i, radix36 (random36 E i) = true) -> id <> "" ->
      forall E' b,
        handleApi E' wheels'
          {| method := "GET"; pathname := "/api/wheel/" ++ id; body := b |}
        = (Sent 200 (WheelBody (Some id) (Some options)), wheels')).
Proof.
  intros Hsub Hne Hvalid. rewrite handleApi_create.
  rewrite (createWheel_valid _ _ _ _ _ Hsub Hne Hvalid). cbv zeta.
  destruct (occupied wheels _) eqn:Hocc; [discriminate|].
  intros [= <- _ _ <-]. apply occupied_false in Hocc as [Hfree _].
  set (id := fst (allocate E wheels 0 4)) in *.
  assert (Hdesc : describeWheel
            (<[id := {| Wheel.id := id; Wheel.options := options;
                        Wheel.results := [] |}]> wheels) id
          = Sent 200 (WheelBody (Some id) (Some options))).
  { unfold describeWheel, wheels_get. by rewrite lookup_insert_eq. }
  repeat split; [done|done|].
  intros Hrand Hid E' b. rewrite (handleApi_get _ _ _ _ id); [f_equal; exact Hdesc|].
  apply match_wheel_id; [done|]. apply base36_id_chars.
  unfold id. rewrite allocate_generated. apply generateId_base36, Hrand.
Qed.

(** C8.  A create with valid entries calls [generateId] at most five times.
    The first of the five identifiers that is no key of the store is the
    one used: the answer is 201 with it and the wheel is stored under it.
    When all five are keys of the store the answer is 500, Could not
    allocate id, and the store is unchanged. *)
Theorem create_allocates_within_five_attempts E wheels payload entries options :
  submits payload entries -> entries <> [] ->
  Forall2 stored_as entries options ->
  (forall i, (i < 5)%nat -> radix36 (random36 E i) = true) ->
  (snd (allocate E wheels 0 4) <= 5)%nat
  /\ (forall i, (i < 5)%nat ->
        wheels !! generateId (random36 E i) = None ->
        (forall j, (j < i)%nat -> is_Some (wheels !! generateId (random36 E j))) ->
        snd (allocate E wheels 0 4) = S i
        /\ handleApi E wheels
             {| method := "POST"; pathname := "/api/wheels"; body := Some payload |}
           = (let id := generateId (random36 E i) in
              (Sent 201 (CreatedBody id ("/wheel.html?id=" ++ id)
                                     ("/results.html?id=" ++ id)),
               <[id := {| Wheel.id := id; Wheel.options := options;
                          Wheel.results := [] |}]> wheels)))
  /\ ((forall i, (i < 5)%nat -> is_Some (wheels !! generateId (random36 E i))) ->
      handleApi E wheels
        {| method := "POST"; pathname := "/api/wheels"; body := Some payload |}
      = (Sent 500 (ErrorBody "Could not allocate id"), wheels)).
Proof.
  intros Hsub Hne Hvalid Hrand. split; [|split].
  - pose proof (allocate_attempts E wheels 4 0). lia.
  - intros i Hi Hfree Htaken.
    assert (Hocc : occupied wheels (generateId (random36 E i)) = false).
    { apply occupied_false. split; [done|].
      apply base36_not_inherited, generateId_base36, Hrand, Hi. }
    assert (Hall : allocate E wheels 0 4 = (generateId (random36 E i), S i)).
    { apply allocate_first_free; [lia| |done].
      intros j Hj. apply occupied_stored, Htaken. lia. }
    rewrite handleApi_create, (createWheel_valid _ _ _ _ _ Hsub Hne Hvalid), Hall.
    cbv zeta. simpl fst. by rewrite Hocc.
  - intros Htaken.
    assert (Hall : allocate E wheels 0 4 = (generateId (random36 E 4), 5%nat)).
    { apply (allocate_exhausted E wheels 4 0).
      intros j Hj. apply occupied_stored, Htaken. lia. }
    rewrite handleApi_create, (createWheel_valid _ _ _ _ _ Hsub Hne Hvalid), Hall.
    cbv zeta. simpl fst. rewrite occupied_stored; [done|]. apply Htaken. lia.
Qed.

(** *** Spin *)

Lemma trimmed_string_cons v c l :
  Js.trimmed_string v = c :: l -> exists s, v = Js.Str s /\ Js.trim s = c :: l.
Proof. destruct v; try discriminate. simpl. eauto. Qed.

Lemma choose_elem options r chosen :
  choose options r = Some chosen -> chosen ∈ options.
Proof.
  unfold choose. intros H. destruct (walk_elem _ _ _ _ _ H) as [|Hhead]; [done|].
  destruct options; [discriminate|]. injection Hhead as ->. set_solver.
Qed.

(** Spin on an identifier that is neither a key of the store nor a name of
    [Object.prototype] answers 404 and changes nothing. *)
Lemma spin_missing_not_found E wheels p b id :
  match_wheel "/spin" p = Some id ->
  wheels !! id = None -> id ∉ Object_prototype ->
  handleApi E wheels {| method := "POST"; pathname := p; body := b |}
  = (Sent 404 (ErrorBody "Wheel not found"), wheels).
Proof.
  intros Hp Hnone Hproto. rewrite (handleApi_spin _ _ _ _ _ Hp).
  unfold spin, wheels_get. rewrite Hnone. by rewrite bool_decide_eq_false_2.
Qed.

(** Spin on a stored wheel with a name or a phone that is no string or is
    empty after trimming answers 400 and changes nothing. *)
Lemma spin_requires_name_and_phone E wheels p payload id w n ph :
  match_wheel "/spin" p = Some id ->
  wheels !! id = Some w ->
  Js.get payload "name" = Js.Ok n -> Js.get payload "phone" = Js.Ok ph ->
  Js.trimmed_string n = [] \/ Js.trimmed_string ph = [] ->
  handleApi E wheels {| method := "POST"; pathname := p; body := Some payload |}
  = (Sent 400 (ErrorBody "Name and phone are required"), wheels).
Proof.
  intros Hp Hw Hn Hph Hblank. rewrite (handleApi_spin _ _ _ _ _ Hp).
  unfold spin. apply wheels_get_stored in Hw. rewrite Hw, Hn, Hph.
  destruct Hblank as [-> | ->]; [done|]. by destruct (Js.trimmed_string n).
Qed.

(** Spin on a name of [Object.prototype] that is no key of the store is
    never answered with 404. *)
Lemma spin_inherited_not_404 E wheels p b id :
  match_wheel "/spin" p = Some id ->
  wheels !! id = None -> id ∈ Object_prototype ->
  forall data,
    fst (handleApi E wheels {| method := "POST"; pathname := p; body := b |})
    <> Sent 404 data.
Proof.
  intros Hp Hnone Hproto data. rewrite (handleApi_spin _ _ _ _ _ Hp).
  unfold spin, wheels_get. rewrite Hnone, bool_decide_eq_true_2 by done.
  destruct b as [payload|]; [|discriminate].
  destruct (Js.get payload "name") as [n|], (Js.get payload "phone") as [ph|];
    try discriminate.
  destruct (Js.trimmed_string n), (Js.trimmed_string ph); discriminate.
Qed.

(** C6 (defect).  Spin on the identifier constructor, which is in no store,
    is not answered with 404: [wheels[id]] finds the member that the store
    inherits from [Object.prototype], the test [!wheel] passes, and with a
    name and a phone given the handler throws on [wheel.options.reduce]. *)
Theorem spin_on_inherited_name_throws E :
  handleApi E ∅
    {| method := "POST"; pathname := "/api/wheel/constructor/spin";
       body := Some (Sample.participant "Ann" "555-1") |}
  = (Uncaught, ∅).
Proof. reflexivity. Qed.

(** C7.  A spin that succeeds on a stored wheel read a name and a phone
    that are strings, chose one of the options of the wheel by the loop on
    the draw scaled by the total weight, answered with the label of that
    option, and left a store in which this wheel has the same identifier and
    options and its former results followed by one record (the trimmed
    name, the trimmed phone, the label chosen, the time of the clock),
    every other key holding what it held. *)
Theorem spin_appends_one_result E wheels p b id w data wheels' :
  match_wheel "/spin" p = Some id ->
  wheels !! id = Some w ->
  handleApi E wheels {| method := "POST"; pathname := p; body := b |}
  = (Sent 200 data, wheels') ->
  exists payload n ph chosen,
    b = Some payload
    /\ Js.get payload "name" = Js.Ok (Js.Str n)
    /\ Js.get payload "phone" = Js.Ok (Js.Str ph)
    /\ choose (Wheel.options w) (random E * totalWeight (Wheel.options w))%float
       = Some chosen
    /\ chosen ∈ Wheel.options w
    /\ data = SpinBody (label chosen)
    /\ wheels' !! id
       = Some {| Wheel.id := Wheel.id w; Wheel.options := Wheel.options w;
                 Wheel.results :=
                   Wheel.results w
                   ++ [ {| name := Js.trim n; phone := Js.trim ph;
                           result := label chosen; timestamp := now E |} ] |}
    /\ (forall k, k <> id -> wheels' !! k = wheels !! k).
Proof.
  intros Hp Hw. rewrite (handleApi_spin _ _ _ _ _ Hp). unfold spin.
  apply wheels_get_stored in Hw. rewrite Hw.
  destruct b as [payload|]; [|discriminate].
  destruct (Js.get payload "name") as [n|] eqn:Hn; [|discriminate].
  destruct (Js.get payload "phone") as [ph|] eqn:Hph; [|discriminate].
  destruct (Js.trimmed_string n) as [|c1 l1] eqn:Hname; [discriminate|].
  destruct (Js.trimmed_string ph) as [|c2 l2] eqn:Hphone; [discriminate|].
  destruct (choose _ _) as [chosen|] eqn:Hchoose; [|discriminate].
  intros [= <- <-].
  apply trimmed_string_cons in Hname as (sn & -> & Hname).
  apply trimmed_string_cons in Hphone as (sp & -> & Hphone).
  exists payload, sn, sp, chosen. rewrite Hname, Hphone.
  repeat split; try done.
  - by apply choose_elem in Hchoose.
  - by rewrite lookup_insert_eq.
  - intros k Hk. by rewrite lookup_insert_ne.
Qed.

(** *** The store *)

(** The four ways a request is handled: the block of list-results is not
    among them. *)
Lemma handleApi_cases E wheels req :
  handleApi E wheels req = createWheel E wheels (body req)
  \/ (exists id, handleApi E wheels req = (describeWheel wheels id, wheels))
  \/ (exists id, handleApi E wheels req = spin E wheels id (body req))
  \/ handleApi E wheels req = (NotApi, wheels).
Proof.
  unfold Server.handleApi.
  repeat match goal with
         | |- context [if ?b then _ else _] => destruct b
         | |- context [match ?x with _ => _ end] => destruct x eqn:?
         end; eauto 10.
  all: match goal with
       | H : match_wheel "/results" _ = Some _ |- _ =>
           apply match_wheel_any_tail in H; congruence
       end.
Qed.

(** No request at all is answered with a list of results. *)
Lemma results_never_sent E wheels req statusCode id results :
  fst (handleApi E wheels req) <> Sent statusCode (ResultsBody id results).
Proof.
  destruct (handleApi_cases E wheels req) as [-> | [[i ->] | [[i ->] | ->]]];
    [| |  |discriminate].
  - unfold Server.createWheel. destruct (body req) as [payload|]; [|discriminate].
    destruct (options_array payload); [|discriminate].
    destruct (sanitise _ _) as [[options|]|]; try discriminate.
    destruct (occupied _ _); discriminate.
  - simpl. unfold describeWheel. destruct (wheels_get wheels i); discriminate.
  - unfold spin. destruct (wheels_get wheels i); try discriminate.
    all: destruct (body req) as [payload|]; try discriminate.
    all: destruct (Js.get payload "name") as [n|], (Js.get payload "phone") as [ph|];
      try discriminate.
    all: destruct (Js.trimmed_string n), (Js.trimmed_string ph); try discriminate.
    destruct (choose _ _); discriminate.
Qed.

Lemma keys_match_insert wheels k w :
  keys_match wheels -> Wheel.id w = k -> keys_match (<[k := w]> wheels).
Proof.
  intros Hinv Hid k' w'. destruct (decide (k = k')) as [<-|Hne].
  - rewrite lookup_insert_eq. by intros [= <-].
  - rewrite lookup_insert_ne by done. apply Hinv.
Qed.

(** C9.  In the empty store, and after any request handled from a store of
    which this holds, every key of the store holds a wheel whose [id] is that
    key. *)
Theorem keys_match_invariant :
  keys_match ∅
  /\ forall E wheels req,
       keys_match wheels -> keys_match (snd (handleApi E wheels req)).
Proof.
  split; [intros k w; by rewrite lookup_empty|].
  intros E wheels req Hinv.
  destruct (handleApi_cases E wheels req)
    as [-> | [[id ->] | [[id ->] | ->]]]; try done.
  - unfold Server.createWheel. destruct (body req) as [payload|]; [|done].
    destruct (options_array payload); [|done].
    destruct (sanitise _ _) as [[options|]|]; try done.
    destruct (occupied _ _); [done|]. by apply keys_match_insert.
  - unfold spin. destruct (wheels_get wheels id) as [| |w] eqn:Hw; [done| |].
    + destruct (body req) as [payload|]; [|done].
      destruct (Js.get payload "name") as [n|], (Js.get payload "phone") as [ph|];
        try done.
      by destruct (Js.trimmed_string n), (Js.trimmed_string ph).
    + destruct (body req) as [payload|]; [|done].
      destruct (Js.get payload "name") as [n|], (Js.get payload "phone") as [ph|];
        try done.
      destruct (Js.trimmed_string n), (Js.trimmed_string ph); try done.
      destruct (choose _ _); [|done].
      apply keys_match_insert; [done|]. simpl.
      apply Hinv. by apply wheels_get_stored.
Qed.

Lemma stored_as_valid entries options :
  Forall2 stored_as entries options ->
  Forall (fun o => label o <> [] /\ Js.positive (weight o)) options.
Proof.
  induction 1 as [|e o es os (s & w & _ & _ & Hne & _ & _ & Hpos) _ IH];
    constructor; done.
Qed.

(** Every wheel that create stores has one option or more, each with a label
    and a positive weight, and no request changes the options of a wheel. *)
Lemma options_valid_invariant :
  options_valid ∅
  /\ forall E wheels req,
       options_valid wheels -> options_valid (snd (handleApi E wheels req)).
Proof.
  split; [intros k w; by rewrite lookup_empty|].
  intros E wheels req Hinv.
  destruct (handleApi_cases E wheels req)
    as [-> | [[id ->] | [[id ->] | ->]]]; try done.
  - unfold Server.createWheel. destruct (body req) as [payload|]; [|done].
    destruct (options_array payload) as [entries|] eqn:Harr; [|done].
    destruct (sanitise _ _) as [[options|]|] eqn:Hs; try done.
    destruct (occupied _ _); [done|]. simpl. intros k w.
    destruct (decide (fst (allocate E wheels 0 4) = k)) as [<-|Hne];
      [|rewrite lookup_insert_ne by done; apply Hinv].
    rewrite lookup_insert_eq. intros [= <-]. simpl.
    apply sanitise_Some in Hs as (new & -> & Hnew). simpl. split.
    + intros ->. apply Forall2_nil_inv_r in Hnew as ->.
      unfold options_array in Harr. destruct (Js.truthy payload); [|done].
      by destruct (Js.get payload "options") as [[| | | | |[|e es]|]|].
    + by apply stored_as_valid in Hnew.
  - unfold spin. destruct (wheels_get wheels id) as [| |w] eqn:Hw; [done| |].
    + destruct (body req) as [payload|]; [|done].
      destruct (Js.get payload "name") as [n|], (Js.get payload "phone") as [ph|];
        try done.
      by destruct (Js.trimmed_string n), (Js.trimmed_string ph).
    + destruct (body req) as [payload|]; [|done].
      destruct (Js.get payload "name") as [n|], (Js.get payload "phone") as [ph|];
        try done.
      destruct (Js.trimmed_string n), (Js.trimmed_string ph); try done.
      destruct (choose _ _); [|done]. simpl. intros k w'.
      destruct (decide (id = k)) as [<-|Hne];
        [|rewrite lookup_insert_ne by done; apply Hinv].
      rewrite lookup_insert_eq. intros [= <-]. simpl.
      apply (Hinv id). by apply wheels_get_stored.
Qed.

(** On such a store a spin with a name and a phone is answered: the
    selection finds an option and nothing is thrown. *)
Lemma spin_is_answered E wheels p payload id w n ph :
  options_valid wheels ->
  match_wheel "/spin" p = Some id ->
  wheels !! id = Some w ->
  Js.get payload "name" = Js.Ok (Js.Str n) -> Js.trim n <> [] ->
  Js.get payload "phone" = Js.Ok (Js.Str ph) -> Js.trim ph <> [] ->
  exists chosen wheels',
    handleApi E wheels {| method := "POST"; pathname := p; body := Some payload |}
    = (Sent 200 (SpinBody (label chosen)), wheels').
Proof.
  intros Hinv Hp Hw Hn Hname Hph Hphone.
  rewrite (handleApi_spin _ _ _ _ _ Hp). unfold spin.
  destruct (Hinv _ _ Hw) as [Hne _]. apply wheels_get_stored in Hw.
  rewrite Hw, Hn, Hph. simpl.
  destruct (Js.trim n) as [|c1 l1]; [done|].
  destruct (Js.trim ph) as [|c2 l2]; [done|].
  destruct (Wheel.options w) as [|o0 l] eqn:Hopts; [done|].
  destruct (walk_is_Some (o0 :: l) (random E * totalWeight (o0 :: l))%float
              0%float (Some o0))
    as [chosen Hc]; [by eexists|].
  unfold choose. change (head (o0 :: l)) with (Some o0). rewrite Hc. by eexists _, _.
Qed.

(** What the handlers do on values they do not guard against: [null] as an
    entry of the options or as the body of a spin is read with [.label] or
    [.name] and the handler throws; an identifier that names a member of
    [Object.prototype] is described as a wheel without id and options. *)
Lemma create_null_entry_throws E wheels rest :
  handleApi E wheels (Sample.create (Js.Null :: rest)) = (Uncaught, wheels).
Proof. reflexivity. Qed.

Lemma spin_null_payload_throws E wheels p id w :
  match_wheel "/spin" p = Some id ->
  wheels !! id = Some w ->
  handleApi E wheels {| method := "POST"; pathname := p; body := Some Js.Null |}
  = (Uncaught, wheels).
Proof.
  intros Hp Hw. rewrite (handleApi_spin _ _ _ _ _ Hp). unfold spin.
  apply wheels_get_stored in Hw. by rewrite Hw.
Qed.

Lemma describe_inherited_name E wheels b :
  wheels !! "constructor" = None ->
  handleApi E wheels
    {| method := "GET"; pathname := "/api/wheel/constructor"; body := b |}
  = (Sent 200 (WheelBody None None), wheels).
Proof.
  intros Hnone. rewrite (handleApi_get _ _ _ _ "constructor") by reflexivity.
  unfold describeWheel, wheels_get. by rewrite Hnone.
Qed.

(** C10.  Create does not refuse equal labels.  The entries Prize with
    weight 1 and Prize between blanks with weight 3 are valid, their trimmed
    labels are equal, the create succeeds and stores both options; and a
    spin of that wheel records a label that two different options of the
    wheel carry. *)
Theorem duplicate_labels_are_stored :
  exists entries o1 o2 id link resultsLink wheels,
    Forall2 stored_as entries [o1; o2]
    /\ label o1 = label o2 /\ o1 <> o2
    /\ handleApi Sample.E ∅ (Sample.create entries)
       = (Sent 201 (CreatedBody id link resultsLink), wheels)
    /\ (exists w, wheels !! id = Some w /\ Wheel.options w = [o1; o2])
    /\ exists r wheels',
         handleApi Sample.E wheels
           {| method := "POST"; pathname := "/api/wheel/" ++ id ++ "/spin";
              body := Some (Sample.participant "Ann" "555-1") |}
         = (Sent 200 (SpinBody r), wheels')
         /\ r = label o1 /\ r = label o2.
Proof.
  exists [Sample.entry "Prize" 1%float; Sample.entry " Prize " 3%float],
    {| label := Js.str "Prize"; weight := 1%float |},
    {| label := Js.str "Prize"; weight := 3%float |}.
  eexists _, _, _, _. split; [|split; [|split; [|split; [|split]]]].
  - repeat constructor.
    + exists (Js.str "Prize"), (Js.Num 1%float). by repeat split.
    + exists (Js.str " Prize "), (Js.Num 3%float). by repeat split.
  - reflexivity.
  - intros H. apply (f_equal (fun o => (weight o <? 3)%float)) in H.
    vm_compute in H. discriminate.
  - vm_compute. reflexivity.
  - eexists. split; [vm_compute; reflexivity|reflexivity].
  - eexists _, _. split; [vm_compute; reflexivity|]. by split.
Qed.

End ServerProperties.

(** * Further properties *)

Section Trimming.

Import History.

Lemma trimStart_head s c :
  head (Js.trimStart s) = Some c -> Js.is_white_space c = false.
Proof.
  induction s as [|a s IH]; [done|]. simpl.
  destruct (Js.is_white_space a) eqn:Ha; [exact IH|]. by intros [= <-].
Qed.

Lemma trimStart_snoc s c :
  Js.is_white_space c = false -> exists p, Js.trimStart (s ++ [c]) = p ++ [c].
Proof.
  intros Hc. induction s as [|a s IH]; simpl.
  - rewrite Hc. by exists [].
  - destruct (Js.is_white_space a); [exact IH|]. by exists (a :: s).
Qed.

Lemma last_rev (s : Js.jsstr) : last (rev s) = head s.
Proof. destruct s as [|a s]; [done|]. simpl. by rewrite last_snoc. Qed.

(** What [trim] returns is empty or trimmed. *)
Lemma trim_trimmed s : Js.trim s <> [] -> trimmed (Js.trim s).
Proof.
  intros Hne. split; [done|]. unfold Js.trim, Js.trimEnd in *. split.
  - destruct (Js.trimStart s) as [|a t] eqn:Ht; [done|].
    assert (Ha : Js.is_white_space a = false).
    { apply (trimStart_head s). by rewrite Ht. }
    simpl. destruct (trimStart_snoc (rev t) a Ha) as [p ->].
    rewrite rev_app_distr. simpl. by intros c [= <-].
  - intros c. rewrite last_rev. apply trimStart_head.
Qed.

Lemma trimStart_trimmed s : trimmed s -> Js.trimStart s = s.
Proof.
  intros (Hne & Hhead & _). destruct s as [|a s]; [done|].
  simpl. by rewrite (Hhead a).
Qed.

(** A trimmed string is left as it is. *)
Lemma trim_of_trimmed s : trimmed s -> Js.trim s = s.
Proof.
  intros H. unfold Js.trim. rewrite (trimStart_trimmed s H).
  destruct H as (Hne & _ & Hlast). unfold Js.trimEnd.
  destruct (rev s) as [|a t] eqn:Hrev.
  - apply (f_equal (@rev _)) in Hrev. rewrite rev_involutive in Hrev. done.
  - assert (Ha : Js.is_white_space a = false).
    { apply Hlast. rewrite <- (rev_involutive s), Hrev. by rewrite last_rev. }
    simpl. rewrite Ha. rewrite <- Hrev. apply rev_involutive.
Qed.

End Trimming.

Section SelectionFurther.

Local Open Scope float_scope.

Implicit Types (options : list wheel_option) (r : float).

(** X16.  Rounding can leave an option without a draw.  With the weights
    2^53, 1 and 2, which create accepts, the running sum after the second
    option is the running sum before it (2^53 + 1 rounds to 2^53): the
    interval of that option is empty and no draw at all selects it. *)
Theorem absorbed_option_is_never_chosen r :
  let A := {| label := Js.str "A"; weight := 9007199254740992 |} in
  let B := {| label := Js.str "B"; weight := 1 |} in
  let C := {| label := Js.str "C"; weight := 2 |} in
  Forall (fun o => Js.positive (weight o)) [A; B; C]
  /\ cumulative_before [A; B; C] 2 = cumulative_before [A; B; C] 1
  /\ choose [A; B; C] r <> Some B.
Proof.
  intros A B C. split; [|split].
  - repeat constructor.
  - reflexivity.
  - intros H. vm_compute in H.
    destruct (r <? 9007199254740992); [discriminate|].
    destruct (r <? 9007199254740994); discriminate.
Qed.

(** X17.  The selection is monotone in the draw: of two draws below the
    total weight that the reduction computed, the larger one selects the same
    option or a later one. *)
Theorem choose_monotone options r r' :
  options <> [] ->
  (r <=? r') = true -> (r' <? totalWeight options) = true ->
  exists i j oi oj,
    options !! i = Some oi /\ options !! j = Some oj
    /\ choose options r = Some oi /\ choose options r' = Some oj
    /\ (i <= j)%nat.
Proof.
  intros Hne Hle Hr'.
  pose proof (leb_ltb_trans _ _ _ Hle Hr') as Hr.
  destruct (choose_in_range options r Hne Hr) as (i & oi & Hi & Hci & _ & Hfirst).
  destruct (choose_in_range options r' Hne Hr') as (j & oj & Hj & Hcj & Hhit & _).
  exists i, j, oi, oj. repeat split; try done.
  destruct (Nat.le_gt_cases i j) as [|Hlt]; [done|].
  pose proof (Hfirst j Hlt) as Hmiss.
  by rewrite (leb_ltb_trans _ _ _ Hle Hhit) in Hmiss.
Qed.

(** A draw scaled by Infinity is Infinity, minus Infinity or NaN: when it is
    not below a finite number it is not below Infinity. *)
Lemma scaled_infinity u :
  (u * infinity <? 0x1p1023) = false -> (u * infinity <? infinity) = false.
Proof.
  rewrite !FloatAxioms.ltb_spec, FloatAxioms.mul_spec.
  change (Prim2SF infinity) with (S754_infinity false).
  destruct (Prim2SF u) as [[]|[]| |[] m e]; vm_compute; done.
Qed.

(** X23.  The sum of the weights can overflow.  With two options of weight
    2^1023, which create accepts, the total weight that the reduction
    computes is Infinity, and for every value of [Math.random()] the option
    selected is the first one: the scaled draw is Infinity or NaN, no
    running sum exceeds it and the loop ends without a match. *)
Theorem overflowing_total_selects_first u :
  let A := {| label := Js.str "A"; weight := 0x1p1023 |} in
  let B := {| label := Js.str "B"; weight := 0x1p1023 |} in
  Forall (fun o => Js.positive (weight o)) [A; B]
  /\ totalWeight [A; B] = infinity
  /\ choose [A; B] (u * totalWeight [A; B]) = Some A.
Proof.
  intros A B. split; [repeat constructor|]. split; [reflexivity|].
  pose proof (scaled_infinity u) as Hs. vm_compute in Hs. vm_compute.
  match goal with
  | |- context [if ?b then _ else _] => destruct b eqn:H1
  end; [done|].
  by rewrite (Hs eq_refl).
Qed.

End SelectionFurther.

Section HandlerEffects.

Import Server History.

Variable StringToNumber : Js.jsstr -> Js.number.
Variable ObjectToNumber : Js.value -> Js.result Js.number.

Local Abbreviation Number := (Js.Number StringToNumber ObjectToNumber).
Local Abbreviation sanitise := (Server.sanitise StringToNumber ObjectToNumber).
Local Abbreviation createWheel := (Server.createWheel StringToNumber ObjectToNumber).
Local Abbreviation handleApi := (Server.handleApi StringToNumber ObjectToNumber).
Local Abbreviation stored_as := (Server.stored_as StringToNumber ObjectToNumber).
Local Abbreviation serve := (History.serve StringToNumber ObjectToNumber).

(** The route a request takes, with what the tests on it established. *)
Lemma handleApi_routes E wheels req :
  (method req = "POST" /\ pathname req = "/api/wheels"
   /\ handleApi E wheels req = createWheel E wheels (body req))
  \/ (exists id, method req = "GET" /\ match_wheel "" (pathname req) = Some id
        /\ handleApi E wheels req = (describeWheel wheels id, wheels))
  \/ (exists id, method req = "POST"
        /\ match_wheel "/spin" (pathname req) = Some id
        /\ handleApi E wheels req = spin E wheels id (body req))
  \/ ((method req <> "GET" \/ match_wheel "" (pathname req) = None)
      /\ (method req <> "POST"
          \/ pathname req <> "/api/wheels"
             /\ match_wheel "/spin" (pathname req) = None)
      /\ handleApi E wheels req = (NotApi, wheels)).
Proof.
  unfold Server.handleApi.
  destruct (String.eqb_spec (method req) "POST") as [HP|HP];
    destruct (String.eqb_spec (pathname req) "/api/wheels") as [HC|HC];
    destruct (String.eqb_spec (method req) "GET") as [HG|HG];
    simpl; try (rewrite HP in HG; discriminate).
  all: repeat match goal with
              | |- context [match match_wheel ?t ?p with _ => _ end] =>
                  destruct (match_wheel t p) eqn:?
              end.
  all: try match goal with
           | H : match_wheel "/results" _ = Some _ |- _ =>
               apply match_wheel_any_tail in H; congruence
           end.
  all: eauto 12.
Qed.

(** What one request does to the store: nothing, or the insertion of a new
    wheel by a create that answers 201, or the addition of one result to a
    stored wheel by a spin that answers 200. *)
Lemma handleApi_effect E wheels req :
  (snd (handleApi E wheels req) = wheels
   /\ wheel_created (fst (handleApi E wheels req)) = false
   /\ forall id, spin_recorded id req (fst (handleApi E wheels req)) = false)
  \/ (exists id entries options,
        method req = "POST" /\ pathname req = "/api/wheels"
        /\ id = fst (allocate E wheels 0 4)
        /\ occupied wheels id = false
        /\ entries <> [] /\ Forall2 stored_as entries options
        /\ handleApi E wheels req
           = (Sent 201 (CreatedBody id ("/wheel.html?id=" ++ id)
                                    ("/results.html?id=" ++ id)),
              <[id := {| Wheel.id := id; Wheel.options := options;
                         Wheel.results := [] |}]> wheels))
  \/ (exists id w n ph chosen,
        method req = "POST" /\ match_wheel "/spin" (pathname req) = Some id
        /\ wheels !! id = Some w
        /\ Js.trim n <> [] /\ Js.trim ph <> []
        /\ choose (Wheel.options w) (random E * totalWeight (Wheel.options w))%float
           = Some chosen
        /\ handleApi E wheels req
           = (Sent 200 (SpinBody (label chosen)),
              <[id := Wheel.push w {| name := Js.trim n; phone := Js.trim ph;
                                      result := label chosen;
                                      timestamp := now E |}]> wheels)).
Proof.
  destruct (handleApi_routes E wheels req)
    as [(HP & HC & ->) | [(id & HG & Hd & ->) | [(id & HP & Hs & ->) | (_ & _ & ->)]]].
  - unfold Server.createWheel.
    destruct (body req) as [payload|];
      [|left; repeat split; intros; unfold spin_recorded;
        by rewrite andb_false_r].
    destruct (options_array payload) as [entries|] eqn:Harr;
      [|left; repeat split; intros; unfold spin_recorded;
        by rewrite andb_false_r].
    destruct (sanitise entries []) as [[options|]|] eqn:Hsan;
      try (left; repeat split; intros; unfold spin_recorded;
           by rewrite andb_false_r).
    destruct (occupied wheels (fst (allocate E wheels 0 4))) eqn:Hocc;
      [left; repeat split; intros; unfold spin_recorded;
       by rewrite andb_false_r|].
    right; left. exists (fst (allocate E wheels 0 4)), entries, options.
    repeat split; try done.
    + intros ->. unfold options_array in Harr.
      destruct (Js.truthy payload); [|done].
      by destruct (Js.get payload "options") as [[| | | | |[|e es]|]|].
    + apply sanitise_Some in Hsan as (new & -> & Hnew). exact Hnew.
  - left. split; [reflexivity|split].
    + simpl. unfold describeWheel. by destruct (wheels_get wheels id).
    + intros id'. unfold spin_recorded. rewrite HG. reflexivity.
  - unfold spin. destruct (wheels_get wheels id) as [| |w] eqn:Hw.
    + left. repeat split; intros; unfold spin_recorded; by rewrite andb_false_r.
    + left. destruct (body req) as [payload|];
        [|repeat split; intros; unfold spin_recorded; by rewrite andb_false_r].
      destruct (Js.get payload "name") as [n|], (Js.get payload "phone") as [ph|];
        try (repeat split; intros; unfold spin_recorded; by rewrite andb_false_r).
      destruct (Js.trimmed_string n), (Js.trimmed_string ph);
        repeat split; intros; unfold spin_recorded; by rewrite andb_false_r.
    + apply wheels_get_stored in Hw.
      destruct (body req) as [payload|];
        [|left; repeat split; intros; unfold spin_recorded; by rewrite andb_false_r].
      destruct (Js.get payload "name") as [n|], (Js.get payload "phone") as [ph|];
        try (left; repeat split; intros; unfold spin_recorded;
             by rewrite andb_false_r).
      destruct (Js.trimmed_string n) as [|c1 l1] eqn:Hn;
        [left; destruct (Js.trimmed_string ph); repeat split; intros;
         unfold spin_recorded; by rewrite andb_false_r|].
      destruct (Js.trimmed_string ph) as [|c2 l2] eqn:Hph;
        [left; repeat split; intros; unfold spin_recorded;
         by rewrite andb_false_r|].
      destruct (choose _ _) as [chosen|] eqn:Hc;
        [|left; repeat split; intros; unfold spin_recorded;
          by rewrite andb_false_r].
      apply trimmed_string_cons in Hn as (sn & -> & Hn).
      apply trimmed_string_cons in Hph as (sp & -> & Hph).
      right; right. exists id, w, sn, sp, chosen.
      rewrite Hn, Hph. by repeat split.
  - left. repeat split; intros; unfold spin_recorded; by rewrite andb_false_r.
Qed.

(** X1.  A request that leaves the store different from what it was has been
    answered 201 by create or 200 with the chosen label by spin: every other
    answer (400, 404, 500, a description), a request that is no API request
    and a handler that throws leave the store as it was. *)
Theorem store_changes_only_on_success E wheels req :
  snd (handleApi E wheels req) <> wheels ->
  (exists id link resultsLink,
     fst (handleApi E wheels req) = Sent 201 (CreatedBody id link resultsLink))
  \/ (exists chosen, fst (handleApi E wheels req) = Sent 200 (SpinBody chosen)).
Proof.
  intros Hchanged.
  destruct (handleApi_effect E wheels req)
    as [(Hsame & _) | [(id & entries & options & _ & _ & _ & _ & _ & _ & ->)
       | (id & w & n & ph & chosen & _ & _ & _ & _ & _ & _ & ->)]].
  - done.
  - left. by eexists _, _, _.
  - right. by eexists.
Qed.

(** *** Runs *)

Lemma serve_cons E req rest wheels :
  serve wheels ((E, req) :: rest)
  = (fst (handleApi E wheels req) :: fst (serve (snd (handleApi E wheels req)) rest),
     snd (serve (snd (handleApi E wheels req)) rest)).
Proof.
  cbn [History.serve]. destruct (handleApi E wheels req) as [out wheels'].
  cbn [fst snd]. by destruct (serve wheels' rest).
Qed.

(** A property of the store that every request keeps holds after a run. *)
Lemma serve_preserves (P : gmap string Wheel.t -> Prop) (ok : env -> Prop) :
  (forall E wheels req, ok E -> P wheels -> P (snd (handleApi E wheels req))) ->
  forall requests wheels,
    Forall (fun x => ok (fst x)) requests ->
    P wheels -> P (snd (serve wheels requests)).
Proof.
  intros Hstep requests.
  induction requests as [|[E req] rest IH]; intros wheels Hok HP; [done|].
  apply Forall_cons in Hok as [HE Hok]. rewrite serve_cons. simpl.
  apply IH; [done|]. by apply Hstep.
Qed.

Lemma extends_refl wheels : extends wheels wheels.
Proof. intros k w Hw. by exists w. Qed.

Lemma extends_trans a b c : extends a b -> extends b c -> extends a c.
Proof.
  intros Hab Hbc k w Hw.
  destruct (Hab k w Hw) as (w' & Hw' & Hid & Hopt & Hres).
  destruct (Hbc k w' Hw') as (w'' & Hw'' & Hid' & Hopt' & Hres').
  exists w''. repeat split; [done|congruence|congruence|by etrans].
Qed.

Lemma handleApi_extends E wheels req :
  extends wheels (snd (handleApi E wheels req)).
Proof.
  destruct (handleApi_effect E wheels req)
    as [(-> & _) | [(id & entries & options & _ & _ & _ & Hocc & _ & _ & ->)
       | (id & w & n & ph & chosen & _ & _ & Hw & _ & _ & _ & ->)]].
  - apply extends_refl.
  - apply occupied_false in Hocc as [Hnone _]. intros k w Hk. exists w.
    simpl. rewrite lookup_insert_ne by congruence. by repeat split.
  - intros k w0 Hk. simpl. destruct (decide (id = k)) as [<-|Hne].
    + rewrite lookup_insert_eq. eexists. split; [done|].
      rewrite Hw in Hk. injection Hk as <-. simpl.
      repeat split. by apply prefix_app_r.
    + rewrite lookup_insert_ne by done. exists w0. by repeat split.
Qed.

(** X2.  Whatever requests are handled, a wheel of the store is never
    removed or replaced: it stays under its key with its identifier and its
    options, and its results only grow at the end. *)
Theorem served_store_extends requests wheels :
  extends wheels (snd (serve wheels requests)).
Proof.
  revert wheels. induction requests as [|[E req] rest IH]; intros wheels.
  - apply extends_refl.
  - rewrite serve_cons. simpl.
    eapply extends_trans; [apply handleApi_extends|apply IH].
Qed.

(** X3.  After any run from the empty store every stored wheel has one
    option or more, each of them with a label that is not empty and a positive
    weight. *)
Theorem served_options_valid requests :
  options_valid (snd (serve ∅ requests)).
Proof.
  destruct (options_valid_invariant StringToNumber ObjectToNumber) as [Hempty Hstep].
  apply (serve_preserves options_valid (fun _ => True)); [auto| |done].
  by apply Forall_forall.
Qed.

Lemma stored_as_trimmed entries options :
  Forall2 stored_as entries options -> Forall (fun o => trimmed (label o)) options.
Proof.
  induction 1 as [|e o es os (s & w & _ & Hlab & Hne & _) _ IH]; constructor; [|done].
  rewrite Hlab in *. by apply trim_trimmed.
Qed.

Lemma handleApi_strings_trimmed E wheels req :
  strings_trimmed wheels -> strings_trimmed (snd (handleApi E wheels req)).
Proof.
  intros Hinv.
  destruct (handleApi_effect E wheels req)
    as [(-> & _) | [(id & entries & options & _ & _ & _ & _ & _ & Hvalid & ->)
       | (id & w & n & ph & chosen & _ & _ & Hw & Hn & Hph & _ & ->)]]; [done| |].
  - intros k w. simpl. destruct (decide (id = k)) as [<-|Hne].
    + rewrite lookup_insert_eq. intros [= <-]. simpl. split; [|constructor].
      by apply stored_as_trimmed in Hvalid.
    + rewrite lookup_insert_ne by done. apply Hinv.
  - intros k w0. simpl. destruct (decide (id = k)) as [<-|Hne].
    + rewrite lookup_insert_eq. intros [= <-]. simpl.
      destruct (Hinv _ _ Hw) as [Hopts Hres]. split; [done|].
      apply Forall_app. split; [done|]. constructor; [|constructor].
      simpl. split; by apply trim_trimmed.
    + rewrite lookup_insert_ne by done. apply Hinv.
Qed.

(** X4.  After any run from the empty store every stored label, name and
    phone is a trimmed string: not empty, with no white space at its
    beginning or at its end. *)
Theorem served_strings_trimmed requests :
  strings_trimmed (snd (serve ∅ requests)).
Proof.
  apply (serve_preserves strings_trimmed (fun _ => True)).
  - intros E wheels req _. apply handleApi_strings_trimmed.
  - by apply Forall_forall.
  - intros k w. by rewrite lookup_empty.
Qed.

Lemma handleApi_results_from_options E wheels req :
  results_from_options wheels ->
  results_from_options (snd (handleApi E wheels req)).
Proof.
  intros Hinv.
  destruct (handleApi_effect E wheels req)
    as [(-> & _) | [(id & entries & options & _ & _ & _ & _ & _ & _ & ->)
       | (id & w & n & ph & chosen & _ & _ & Hw & _ & _ & Hc & ->)]]; [done| |].
  - intros k w. simpl. destruct (decide (id = k)) as [<-|Hne].
    + rewrite lookup_insert_eq. intros [= <-]. simpl. constructor.
    + rewrite lookup_insert_ne by done. apply Hinv.
  - intros k w0. simpl. destruct (decide (id = k)) as [<-|Hne].
    + rewrite lookup_insert_eq. intros [= <-]. simpl.
      apply Forall_app. split; [by apply (Hinv id)|].
      constructor; [|constructor]. exists chosen. split; [|done].
      by apply choose_elem in Hc.
    + rewrite lookup_insert_ne by done. apply Hinv.
Qed.

(** X5.  After any run from the empty store the label that a recorded result
    carries is the label of an option of the wheel that holds the result. *)
Theorem served_results_from_options requests :
  results_from_options (snd (serve ∅ requests)).
Proof.
  apply (serve_preserves results_from_options (fun _ => True)).
  - intros E wheels req _. apply handleApi_results_from_options.
  - by apply Forall_forall.
  - intros k w. by rewrite lookup_empty.
Qed.

Lemma handleApi_keys_base36 E wheels req :
  (forall i, radix36 (random36 E i) = true) ->
  keys_base36 wheels -> keys_base36 (snd (handleApi E wheels req)).
Proof.
  intros Hrand Hinv.
  destruct (handleApi_effect E wheels req)
    as [(-> & _) | [(id & entries & options & _ & _ & Hid & _ & _ & _ & ->)
       | (id & w & n & ph & chosen & _ & _ & Hw & _ & _ & _ & ->)]]; [done| |].
  - intros k w. simpl. destruct (decide (id = k)) as [<-|Hne].
    + intros _. rewrite Hid, allocate_generated. apply generateId_base36, Hrand.
    + rewrite lookup_insert_ne by done. apply Hinv.
  - intros k w0. simpl. destruct (decide (id = k)) as [<-|Hne].
    + intros _. by apply (Hinv id w).
    + rewrite lookup_insert_ne by done. apply Hinv.
Qed.

(** X6.  When every draw of [Math.random()] renders in radix 36 as 0 or as
    0. followed by digits, every key of the store after a run from the empty
    store is made of at most eight characters among 0-9 and a-z: no key is a
    name of [Object.prototype], and every key is made of characters that the
    patterns of the routes accept. *)
Theorem served_keys_base36 requests :
  Forall (fun x => forall i, radix36 (random36 (fst x) i) = true) requests ->
  forall k w, snd (serve ∅ requests) !! k = Some w ->
    is_base36_id k = true
    /\ (k ∉ Object_prototype)
    /\ all_chars is_id_char k = true.
Proof.
  intros Hrand k w Hk.
  assert (Hkeys : keys_base36 (snd (serve ∅ requests))).
  { apply (serve_preserves keys_base36
             (fun E => forall i, radix36 (random36 E i) = true)); [|done|].
    - intros E wheels req. apply handleApi_keys_base36.
    - intros k' w'. by rewrite lookup_empty. }
  pose proof (Hkeys k w Hk) as Hb. split; [done|]. split.
  - by apply base36_not_inherited.
  - by apply base36_id_chars.
Qed.

Lemma handleApi_size E wheels req :
  size (snd (handleApi E wheels req))
  = (size wheels
     + (if wheel_created (fst (handleApi E wheels req)) then 1 else 0))%nat.
Proof.
  destruct (handleApi_effect E wheels req)
    as [(-> & -> & _) | [(id & entries & options & _ & _ & _ & Hocc & _ & _ & ->)
       | (id & w & n & ph & chosen & _ & _ & Hw & _ & _ & _ & ->)]]; simpl.
  - lia.
  - apply occupied_false in Hocc as [Hnone _].
    rewrite map_size_insert_None by done. lia.
  - rewrite map_size_insert_Some by eauto. lia.
Qed.

(** X7.  The number of wheels in the store after a run is the number before
    it plus the number of creates answered 201 in the run: each such create
    adds one wheel and no other request adds or removes one. *)
Theorem served_wheel_count requests wheels :
  size (snd (serve wheels requests))
  = (size wheels + count_created (fst (serve wheels requests)))%nat.
Proof.
  revert wheels. induction requests as [|[E req] rest IH]; intros wheels.
  - simpl. unfold count_created. simpl. lia.
  - rewrite serve_cons. simpl. rewrite IH, handleApi_size.
    unfold count_created. simpl.
    destruct (wheel_created (fst (handleApi E wheels req))); simpl; lia.
Qed.

Lemma handleApi_results_count E wheels req id :
  results_count (snd (handleApi E wheels req)) id
  = (results_count wheels id
     + (if spin_recorded id req (fst (handleApi E wheels req)) then 1 else 0))%nat.
Proof.
  unfold results_count.
  destruct (handleApi_effect E wheels req)
    as [(-> & _ & Hnot) | [(id0 & entries & options & HP & _ & _ & Hocc & _ & _ & ->)
       | (id0 & w & n & ph & chosen & HP & Hs & Hw & _ & _ & _ & ->)]]; simpl.
  - rewrite Hnot. lia.
  - apply occupied_false in Hocc as [Hnone _].
    unfold spin_recorded. rewrite andb_false_r.
    destruct (decide (id0 = id)) as [<-|Hne].
    + rewrite lookup_insert_eq, Hnone. simpl. lia.
    + rewrite lookup_insert_ne by done. lia.
  - unfold spin_recorded. rewrite HP, Hs. simpl.
    destruct (decide (id0 = id)) as [<-|Hne].
    + rewrite lookup_insert_eq, Hw, bool_decide_eq_true_2 by done.
      simpl. rewrite length_app. simpl. lia.
    + rewrite lookup_insert_ne by done.
      rewrite bool_decide_eq_false_2 by congruence. simpl. lia.
Qed.

(** X8.  The number of results that a wheel holds after a run is the number
    it held before (none when it was not stored) plus the number of spins of
    that wheel answered 200 in the run: no recorded spin is lost and none is
    recorded twice. *)
Theorem served_results_count requests wheels id :
  results_count (snd (serve wheels requests)) id
  = (results_count wheels id
     + count_spins id requests (fst (serve wheels requests)))%nat.
Proof.
  revert wheels. induction requests as [|[E req] rest IH]; intros wheels.
  - simpl. lia.
  - rewrite serve_cons. simpl. rewrite IH, handleApi_results_count. lia.
Qed.

(** *** Answers of the routes *)

Lemma span_stops p id c rest :
  all_chars p id = true -> p c = false ->
  span p (id ++ String c rest) = (id, String c rest).
Proof.
  intros Hall Hc. induction id as [|a id IH]; simpl.
  - by rewrite Hc.
  - simpl in Hall. apply andb_true_iff in Hall as [-> Hall]. by rewrite (IH Hall).
Qed.

(** The describe pattern captures the identifier and ignores what follows
    it. *)
Lemma match_wheel_followed id rest :
  id <> "" -> all_chars is_id_char id = true ->
  (rest = "" \/ exists c rest', rest = String c rest' /\ is_id_char c = false) ->
  match_wheel "" ("/api/wheel/" ++ id ++ rest) = Some id.
Proof.
  intros Hne Hall [-> | (c & rest' & -> & Hc)].
  - replace (id ++ "")%string with id; [by apply match_wheel_id|].
    clear. induction id as [|a id IH]; [done|].
    change (String a id ++ "")%string with (String a (id ++ "")).
    by rewrite <- IH.
  - unfold match_wheel.
    change (strip_prefix "/api/wheel/" ("/api/wheel/" ++ id ++ String c rest'))
      with (Some (id ++ String c rest')%string).
    cbv beta iota. rewrite (span_stops _ _ _ _ Hall Hc). by destruct id.
Qed.

(** X9.  A GET on /api/wheel/<id>, whatever follows the identifier in the
    path, is answered from the store alone and leaves it as it is: with 200,
    the identifier and the options of the wheel when the store holds it, and
    with 404 when the identifier is neither a key of the store nor a name of
    [Object.prototype]. *)
Theorem describe_answers_from_store E wheels id rest b :
  id <> "" -> all_chars is_id_char id = true ->
  (rest = "" \/ exists c rest', rest = String c rest' /\ is_id_char c = false) ->
  (forall w, wheels !! id = Some w ->
     handleApi E wheels
       {| method := "GET"; pathname := "/api/wheel/" ++ id ++ rest; body := b |}
     = (Sent 200 (WheelBody (Some (Wheel.id w)) (Some (Wheel.options w))), wheels))
  /\ (wheels !! id = None -> id ∉ Object_prototype ->
      handleApi E wheels
        {| method := "GET"; pathname := "/api/wheel/" ++ id ++ rest; body := b |}
      = (Sent 404 (ErrorBody "Wheel not found"), wheels)).
Proof.
  intros Hne Hall Hrest.
  pose proof (match_wheel_followed id rest Hne Hall Hrest) as Hm.
  split.
  - intros w Hw. rewrite (handleApi_get _ _ _ _ _ _ id Hm).
    unfold describeWheel, wheels_get. by rewrite Hw.
  - intros Hnone Hproto. rewrite (handleApi_get _ _ _ _ _ _ id Hm).
    unfold describeWheel, wheels_get. rewrite Hnone.
    by rewrite bool_decide_eq_false_2.
Qed.

(** X10.  A spin whose identifier is neither a key of the store nor a name of
    [Object.prototype] is answered 404, Wheel not found, whatever its body
    is, parsable or not, and the store stays as it is. *)
Theorem spin_unknown_wheel_not_found E wheels id rest b :
  id <> "" -> all_chars is_id_char id = true ->
  wheels !! id = None -> id ∉ Object_prototype ->
  handleApi E wheels
    {| method := "POST"; pathname := "/api/wheel/" ++ id ++ "/spin" ++ rest;
       body := b |}
  = (Sent 404 (ErrorBody "Wheel not found"), wheels).
Proof.
  intros Hne Hall Hnone Hproto.
  apply (spin_missing_not_found _ _ E wheels _ b id); [|done|done].
  unfold match_wheel.
  change (strip_prefix "/api/wheel/" ("/api/wheel/" ++ id ++ "/spin" ++ rest))
    with (Some (id ++ String "/" ("spin" ++ rest))%string).
  cbv beta iota.
  rewrite (span_stops is_id_char id "/" ("spin" ++ rest) Hall eq_refl).
  by destruct id.
Qed.

(** X11.  On a store whose wheels have options, a spin of a stored wheel with
    a body that is not [null] is answered by the name and the phone alone:
    400 and no change when one of them is no string or blank, and otherwise
    200 with the label of an option of the wheel. *)
Theorem spin_answer_by_participant E wheels p payload id w n ph :
  options_valid wheels ->
  match_wheel "/spin" p = Some id ->
  wheels !! id = Some w ->
  Js.get payload "name" = Js.Ok n -> Js.get payload "phone" = Js.Ok ph ->
  (Js.trimmed_string n = [] \/ Js.trimmed_string ph = [] ->
   handleApi E wheels {| method := "POST"; pathname := p; body := Some payload |}
   = (Sent 400 (ErrorBody "Name and phone are required"), wheels))
  /\ (Js.trimmed_string n <> [] -> Js.trimmed_string ph <> [] ->
      exists chosen, chosen ∈ Wheel.options w
        /\ fst (handleApi E wheels
                  {| method := "POST"; pathname := p; body := Some payload |})
           = Sent 200 (SpinBody (label chosen))).
Proof.
  intros Hinv Hp Hw Hn Hph. split.
  - intros Hblank.
    exact (spin_requires_name_and_phone _ _ E wheels p payload id w n ph
             Hp Hw Hn Hph Hblank).
  - intros Hname Hphone.
    destruct (Js.trimmed_string n) as [|c1 l1] eqn:Hnt; [done|].
    destruct (Js.trimmed_string ph) as [|c2 l2] eqn:Hpt; [done|].
    apply trimmed_string_cons in Hnt as (sn & -> & Hnt).
    apply trimmed_string_cons in Hpt as (sp & -> & Hpt).
    destruct (handleApi_effect E wheels
                {| method := "POST"; pathname := p; body := Some payload |})
      as [(_ & _ & Hnot) | [(id0 & entries & options & _ & HC & _)
         | (id0 & w0 & n0 & ph0 & chosen & _ & Hs & Hw0 & _ & _ & Hc & Heq)]].
    + destruct (spin_is_answered StringToNumber ObjectToNumber E wheels p payload
                  id w sn sp Hinv Hp Hw Hn ltac:(by rewrite Hnt)
                  Hph ltac:(by rewrite Hpt)) as (chosen & wheels' & Heq).
      specialize (Hnot id). rewrite Heq in Hnot. unfold spin_recorded in Hnot.
      simpl in Hnot. by rewrite Hp, bool_decide_eq_true_2 in Hnot.
    + simpl in HC. rewrite HC in Hp. discriminate.
    + simpl in Hs. rewrite Hp in Hs. injection Hs as <-.
      rewrite Hw in Hw0. injection Hw0 as <-.
      exists chosen. split; [by apply choose_elem in Hc|]. by rewrite Heq.
Qed.

(** X12.  A create whose parsed body does not carry an array of one entry or
    more under [options] (a body that is null, a number, a string, an array,
    an object without [options], or with [options] that is no array or is
    empty) is answered 400, options array is required, and the store stays
    as it is. *)
Theorem create_requires_options_array E wheels payload :
  (forall fields e es,
     payload = Js.Obj fields ->
     Js.own_property fields (Js.str "options") <> Js.Arr (e :: es)) ->
  handleApi E wheels
    {| method := "POST"; pathname := "/api/wheels"; body := Some payload |}
  = (Sent 400 (ErrorBody "options array is required"), wheels).
Proof.
  intros Hnone. rewrite handleApi_create. unfold Server.createWheel.
  assert (options_array payload = None) as ->; [|done].
  unfold options_array. destruct (Js.truthy payload); [|done].
  destruct payload as [| | | | | |fields]; try done. simpl.
  destruct (Js.own_property fields (Js.str "options")) as [| | | | |[|e es]|] eqn:Hopt;
    try done.
  by destruct (Hnone fields e es).
Qed.

(** A request whose method is neither GET nor POST is no API request,
    whatever its path and body: nothing is sent and the store stays as it
    is. *)
Lemma other_methods_not_api E wheels req :
  method req <> "GET" -> method req <> "POST" ->
  handleApi E wheels req = (NotApi, wheels).
Proof.
  intros HG HP.
  destruct (handleApi_routes E wheels req)
    as [(HP' & _) | [(id & HG' & _) | [(id & HP' & _) | (_ & _ & ->)]]]; done.
Qed.

(** X13.  The statuses of the API: every answer is 201 with the identifier
    and the two links, 200 with a description or with a chosen label, or an
    error message under 400, 404 or 500; under 404 the message is Wheel not
    found and under 500 it is Could not allocate id. *)
Theorem handleApi_statuses E wheels req statusCode data :
  fst (handleApi E wheels req) = Sent statusCode data ->
  (statusCode = 201%Z /\ exists id, data = CreatedBody id ("/wheel.html?id=" ++ id)
                                                   ("/results.html?id=" ++ id))
  \/ (statusCode = 200%Z /\ ((exists id options, data = WheelBody id options)
                          \/ exists chosen, data = SpinBody chosen))
  \/ (statusCode = 400%Z /\ exists error, data = ErrorBody error)
  \/ (statusCode = 404%Z /\ data = ErrorBody "Wheel not found")
  \/ (statusCode = 500%Z /\ data = ErrorBody "Could not allocate id").
Proof.
  destruct (handleApi_routes E wheels req)
    as [(_ & _ & ->) | [(id & _ & _ & ->) | [(id & _ & _ & ->) | (_ & _ & ->)]]];
    [| | |discriminate].
  - unfold Server.createWheel. destruct (body req) as [payload|].
    + destruct (options_array payload).
      * destruct (sanitise _ _) as [[options|]|]; [| |discriminate].
        -- destruct (occupied _ _); intros [= <- <-]; eauto 12.
        -- intros [= <- <-]. eauto 12.
      * intros [= <- <-]. eauto 12.
    + intros [= <- <-]. eauto 12.
  - simpl. unfold describeWheel.
    destruct (wheels_get wheels id); intros [= <- <-]; eauto 12.
  - unfold spin. destruct (wheels_get wheels id).
    + intros [= <- <-]. eauto 12.
    + destruct (body req) as [payload|]; [|intros [= <- <-]; eauto 12].
      destruct (Js.get payload "name") as [n|], (Js.get payload "phone") as [ph|];
        try discriminate.
      destruct (Js.trimmed_string n), (Js.trimmed_string ph);
        try discriminate; intros [= <- <-]; eauto 12.
    + destruct (body req) as [payload|]; [|intros [= <- <-]; eauto 12].
      destruct (Js.get payload "name") as [n|], (Js.get payload "phone") as [ph|];
        try discriminate.
      destruct (Js.trimmed_string n), (Js.trimmed_string ph);
        try (intros [= <- <-]; eauto 12).
      destruct (choose _ _); [|discriminate]. intros [= <- <-]. eauto 12.
Qed.

(** X14.  Describe and spin look at one wheel: on two stores that hold the
    same under the identifier of the request they send the same answer, and
    the stores they leave hold the same under that identifier. *)
Theorem one_wheel_matters E wheels1 wheels2 req id :
  (method req = "GET" /\ match_wheel "" (pathname req) = Some id
   \/ method req = "POST" /\ match_wheel "/spin" (pathname req) = Some id) ->
  wheels1 !! id = wheels2 !! id ->
  fst (handleApi E wheels1 req) = fst (handleApi E wheels2 req)
  /\ snd (handleApi E wheels1 req) !! id = snd (handleApi E wheels2 req) !! id.
Proof.
  intros Hroute Hsame. destruct req as [m p b]. simpl in Hroute.
  assert (Hget : wheels_get wheels1 id = wheels_get wheels2 id).
  { unfold wheels_get. by rewrite Hsame. }
  destruct Hroute as [[-> Hm] | [-> Hm]].
  - rewrite !(handleApi_get _ _ _ _ _ _ id Hm). simpl.
    unfold describeWheel. by rewrite Hget.
  - rewrite !(handleApi_spin _ _ _ _ _ _ id Hm). unfold spin. rewrite Hget.
    destruct (wheels_get wheels2 id) as [| |w]; [done| |].
    + destruct b as [payload|]; [|done].
      destruct (Js.get payload "name") as [n|], (Js.get payload "phone") as [ph|];
        try done.
      by destruct (Js.trimmed_string n), (Js.trimmed_string ph).
    + destruct b as [payload|]; [|done].
      destruct (Js.get payload "name") as [n|], (Js.get payload "phone") as [ph|];
        try done.
      destruct (Js.trimmed_string n), (Js.trimmed_string ph); try done.
      destruct (choose _ _); [|done]. simpl. by rewrite !lookup_insert_eq.
Qed.

(** X15.  On a store whose wheels have options, a spin of a stored wheel with
    a name and a phone, whose scaled draw (the product of [Math.random()] and
    the total weight, rounded to a double) is below the total weight that the
    reduction computed, answers 200 with the label of the first option whose
    running sum exceeds the scaled draw. *)
Theorem spin_selects_by_weight E wheels p payload id w n ph :
  options_valid wheels ->
  match_wheel "/spin" p = Some id ->
  wheels !! id = Some w ->
  Js.get payload "name" = Js.Ok (Js.Str n) -> Js.trim n <> [] ->
  Js.get payload "phone" = Js.Ok (Js.Str ph) -> Js.trim ph <> [] ->
  (random E * totalWeight (Wheel.options w) <? totalWeight (Wheel.options w))%float
  = true ->
  exists i chosen,
    Wheel.options w !! i = Some chosen
    /\ (random E * totalWeight (Wheel.options w)
        <? cumulative_before (Wheel.options w) (S i))%float = true
    /\ (forall j, (j < i)%nat ->
          (random E * totalWeight (Wheel.options w)
           <? cumulative_before (Wheel.options w) (S j))%float = false)
    /\ fst (handleApi E wheels
              {| method := "POST"; pathname := p; body := Some payload |})
       = Sent 200 (SpinBody (label chosen)).
Proof.
  intros Hinv Hp Hw Hn Hname Hph Hphone Hr.
  destruct (Hinv _ _ Hw) as [Hne _].
  destruct (choose_in_range _ _ Hne Hr) as (i & chosen & Hi & Hc & Hhit & Hfirst).
  exists i, chosen. repeat split; try done.
  rewrite (handleApi_spin _ _ _ _ _ _ id Hp). unfold spin.
  apply wheels_get_stored in Hw. rewrite Hw, Hn, Hph. simpl.
  destruct (Js.trim n) as [|c1 l1]; [done|].
  destruct (Js.trim ph) as [|c2 l2]; [done|].
  by rewrite Hc.
Qed.

End HandlerEffects.

Section ListenerProperties.

Import Server Static.

Variable decodeURI : string -> option string.
Variable join : string -> string -> string.
Variable resolve : string -> string.
Variable extname : string -> string.
Variable fs : string -> option node.
Variable publicDir : string.
Variable StringToNumber : Js.jsstr -> Js.number.
Variable ObjectToNumber : Js.value -> Js.result Js.number.

Local Abbreviation handleApi := (Server.handleApi StringToNumber ObjectToNumber).
Local Abbreviation getContentType := (Static.getContentType extname).
Local Abbreviation send_file := (Static.send_file extname fs).
Local Abbreviation tryServeStatic :=
  (Static.tryServeStatic decodeURI join resolve extname fs).
Local Abbreviation listener :=
  (Static.listener decodeURI join resolve extname fs publicDir
                   StringToNumber ObjectToNumber).

Lemma createWheel_is_api E wheels b :
  fst (Server.createWheel StringToNumber ObjectToNumber E wheels b) <> NotApi.
Proof.
  unfold Server.createWheel. destruct b as [payload|]; [|done].
  destruct (options_array payload); [|done].
  destruct (Server.sanitise _ _ _ _) as [[options|]|]; try done.
  by destruct (occupied _ _).
Qed.

Lemma spin_is_api E wheels id b : fst (spin E wheels id b) <> NotApi.
Proof.
  unfold spin. destruct (wheels_get wheels id); [done| |].
  all: destruct b as [payload|]; [|done].
  all: destruct (Js.get payload "name") as [n|], (Js.get payload "phone") as [ph|];
    try done.
  all: destruct (Js.trimmed_string n), (Js.trimmed_string ph); try done.
  by destruct (choose _ _).
Qed.

Lemma apiHandled_routes E wheels req :
  (apiHandled wheels req = ReturnsTrue
   /\ fst (handleApi E wheels req) <> NotApi
   /\ method req = "POST"
   /\ (pathname req = "/api/wheels"
       \/ exists id, match_wheel "/spin" (pathname req) = Some id
                     /\ wheels_get wheels id <> Missing))
  \/ (apiHandled wheels req = ReturnsUndefined
      /\ exists statusCode data,
           handleApi E wheels req = (Sent statusCode data, wheels))
  \/ (apiHandled wheels req = ReturnsFalse
      /\ handleApi E wheels req = (NotApi, wheels)).
Proof.
  unfold apiHandled, Server.handleApi.
  destruct (String.eqb_spec (method req) "POST") as [HP|HP];
    destruct (String.eqb_spec (pathname req) "/api/wheels") as [HC|HC];
    destruct (String.eqb_spec (method req) "GET") as [HG|HG];
    simpl; try (rewrite HP in HG; discriminate).
  all: repeat match goal with
              | |- context [match match_wheel ?t ?p with _ => _ end] =>
                  destruct (match_wheel t p) eqn:?
              end.
  all: try match goal with
           | H : match_wheel "/results" _ = Some _ |- _ =>
               apply match_wheel_any_tail in H; congruence
           end.
  all: try (left; split; [done|]; split; [apply createWheel_is_api|]; by eauto).
  all: try (right; right; by split).
  all: try (right; left; split; [done|]; unfold describeWheel;
            match goal with
            | |- context [wheels_get ?w ?i] => destruct (wheels_get w i)
            end; by eauto).
  all: match goal with
       | |- context [spin ?E ?w ?i ?b] =>
           pose proof (spin_is_api E w i b) as Hapi; unfold spin in *;
           destruct (wheels_get w i) eqn:Hw
       end.
  all: try (right; left; split; [done|]; by eauto).
  all: left; split; [done|]; split; [done|]; split; [done|]; right;
    eexists; split; [done|]; by rewrite Hw.
Qed.

Lemma apiHandled_true wheels req :
  method req = "POST" ->
  (pathname req = "/api/wheels"
   \/ exists id, match_wheel "/spin" (pathname req) = Some id
                 /\ wheels_get wheels id <> Missing) ->
  apiHandled wheels req = ReturnsTrue.
Proof.
  intros HP [HC|(id & Hs & Hfound)]; unfold apiHandled; rewrite HP.
  - by rewrite HC.
  - rewrite (match_wheel_not_create _ _ _ Hs), Hs. simpl.
    destruct (match_wheel "" (pathname req)), (match_wheel "/results" (pathname req));
      by destruct (wheels_get wheels id).
Qed.

(** X18.  The value that [handleApi] resolves to does not tell whether it
    answered.  It is [false] exactly when the request is no API request and
    [true] exactly for a create and for a spin of an identifier that
    [wheels[id]] finds; in every other case, that of a describe and that of
    the 404 of spin, it is the value of [sendJson], undefined, although the
    answer has been sent. *)
Theorem api_return_value E wheels req :
  (apiHandled wheels req = ReturnsFalse <-> fst (handleApi E wheels req) = NotApi)
  /\ (apiHandled wheels req = ReturnsTrue <->
      method req = "POST"
      /\ (pathname req = "/api/wheels"
          \/ exists id, match_wheel "/spin" (pathname req) = Some id
                        /\ wheels_get wheels id <> Missing))
  /\ (apiHandled wheels req <> ReturnsFalse ->
      apiHandled wheels req <> ReturnsTrue ->
      apiHandled wheels req = ReturnsUndefined
      /\ exists statusCode data,
           handleApi E wheels req = (Sent statusCode data, wheels)).
Proof.
  split; [|split].
  - destruct (apiHandled_routes E wheels req)
      as [(Hr & Hapi & _) | [(Hr & s & d & Hh) | (Hr & Hh)]]; rewrite Hr.
    + split; [done|]. intros Hna. by destruct Hapi.
    + rewrite Hh. by split.
    + by rewrite Hh.
  - split; [|intros [HP Hroute]; by apply apiHandled_true].
    destruct (apiHandled_routes E wheels req)
      as [(Hr & _ & HP & Hroute) | [(Hr & _) | (Hr & _)]]; rewrite Hr; done.
  - destruct (apiHandled_routes E wheels req)
      as [(Hr & _) | [(Hr & Hsent) | (Hr & _)]]; rewrite Hr; done.
Qed.

Lemma tryServeStatic_after_answer req res baseDir :
  res <> [] ->
  tryServeStatic req res baseDir = Throws
  \/ tryServeStatic req res baseDir = Returns (false, res).
Proof.
  intros Hres. unfold Static.tryServeStatic.
  assert (Hsend : forall filePath, send_file req res filePath = (false, res)).
  { intros filePath. unfold Static.send_file.
    destruct (readFileSync fs filePath); [|done]. by destruct res. }
  destruct (decodeURI (pathname req)) as [pathname|]; [|by left]. right.
  destruct (negb (String.eqb (method req) "GET")
            && negb (String.eqb (method req) "HEAD")); [done|].
  cbv zeta.
  destruct (negb (String.prefix _ _)); [done|].
  destruct (fs _) as [[|content]|]; [|by rewrite Hsend|done].
  destruct (fs _); [by rewrite Hsend|done].
Qed.

(** X19.  After a request that [handleApi] answered at once (every describe,
    and the 404 of spin) the listener goes on as if nothing had been sent:
    it calls [tryServeStatic] and then [res.writeHead] on the response that
    is already written.  What the client receives is the JSON answer alone,
    and the listener ends with an error thrown, whatever the files are. *)
Theorem answered_then_rejected E wheels req :
  apiHandled wheels req = ReturnsUndefined ->
  exists statusCode data,
    fst (handleApi E wheels req) = Sent statusCode data
    /\ listener E wheels req
       = ({| response := [WriteHead statusCode "application/json; charset=utf-8";
                          End (Json data)];
             escaped := true |}, wheels).
Proof.
  intros Hr.
  destruct (apiHandled_routes E wheels req)
    as [(Hr' & _) | [(_ & s & d & Hh) | (Hr' & _)]]; try congruence.
  exists s, d. rewrite Hh. split; [done|].
  unfold Static.listener. rewrite Hh, Hr.
  change (sendJson [] s d)
    with (Returns [WriteHead s "application/json; charset=utf-8"; End (Json d)]).
  cbv beta iota zeta.
  destruct (tryServeStatic_after_answer req
              [WriteHead s "application/json; charset=utf-8"; End (Json d)]
              publicDir ltac:(done)) as [-> | ->]; done.
Qed.

Lemma send_file_spec req res filePath :
  (exists content,
     fs filePath = Some (File (Some content)) /\ res = []
     /\ send_file req res filePath
        = (true, [WriteHead 200 (getContentType filePath);
                  End (if String.eqb (method req) "GET" then Content content
                       else NoBody)]))
  \/ send_file req res filePath = (false, res).
Proof.
  unfold Static.send_file, readFileSync.
  destruct (fs filePath) as [[|[content|]]|]; try by right.
  destruct res; [|by right]. left. exists content. simpl.
  by destruct (String.eqb (method req) "GET").
Qed.

(** What [tryServeStatic] returns and writes. *)
Lemma tryServeStatic_cases req res baseDir served res' :
  tryServeStatic req res baseDir = Returns (served, res') ->
  (served = false /\ res' = res)
  \/ (served = true /\ res = []
      /\ (method req = "GET" \/ method req = "HEAD")
      /\ exists filePath content,
           fs filePath = Some (File (Some content))
           /\ res' = [WriteHead 200 (getContentType filePath);
                      End (if String.eqb (method req) "GET" then Content content
                           else NoBody)]).
Proof.
  unfold Static.tryServeStatic.
  destruct (decodeURI (pathname req)) as [pathname|]; [|discriminate].
  destruct (String.eqb_spec (method req) "GET") as [HG|HG];
    destruct (String.eqb_spec (method req) "HEAD") as [HH|HH]; simpl;
    try (intros [= <- <-]; by left).
  all: destruct (negb (String.prefix _ _)); [intros [= <- <-]; by left|].
  all: destruct (fs _) as [[|c]|] eqn:Hfs; [|..|intros [= <- <-]; by left].
  all: try (destruct (fs (join _ "index.html")) eqn:Hidx;
            [|intros [= <- <-]; by left]).
  all: match goal with
       | |- Returns (Static.send_file _ _ ?r ?s ?f) = _ -> _ =>
           destruct (send_file_spec r s f) as [(content & Hc & -> & Hs)|Hs];
           rewrite Hs; intros [= <- <-]; [right|by left]
       end.
  all: split; [done|]; split; [done|]; split; [by eauto|].
  all: eexists _, content; split; [exact Hc|].
  all: try rewrite HG; try rewrite HH; try done.
  all: by destruct (String.eqb_spec (method req) "GET").
Qed.

(** X20.  [tryServeStatic] returns true only for a GET or a HEAD on a
    response on which nothing is written yet, after it wrote the status 200
    with the content type of a file that the file system holds and can read,
    followed by the content of that file for a GET and by nothing for a HEAD.
    When it returns false it has written nothing, and on a response that is
    already written it never returns true. *)
Theorem tryServeStatic_serves req res baseDir served res' :
  tryServeStatic req res baseDir = Returns (served, res') ->
  (served = false -> res' = res)
  /\ (res <> [] -> served = false)
  /\ (served = true ->
      res = []
      /\ (method req = "GET" \/ method req = "HEAD")
      /\ exists filePath content,
           fs filePath = Some (File (Some content))
           /\ res' = [WriteHead 200 (getContentType filePath);
                      End (if String.eqb (method req) "GET" then Content content
                           else NoBody)]).
Proof.
  intros H. apply tryServeStatic_cases in H
    as [[-> ->] | (-> & -> & Hm & Hfile)].
  - repeat split; done.
  - repeat split; done.
Qed.

(** X21.  A request that is no API request gets one answer and leaves the
    store as it is: the file that [tryServeStatic] found, under 200, or
    Not found under 404; or nothing is written and the listener ends with
    the error of [decodeURI] on a path that cannot be decoded. *)
Theorem not_api_gets_one_answer E wheels req :
  apiHandled wheels req = ReturnsFalse ->
  snd (listener E wheels req) = wheels
  /\ ((decodeURI (pathname req) = None
       /\ fst (listener E wheels req) = {| response := []; escaped := true |})
      \/ (exists contentType body,
            fst (listener E wheels req)
            = {| response := [WriteHead 200 contentType; End body];
                 escaped := false |})
      \/ fst (listener E wheels req)
         = {| response := [WriteHead 404 "text/plain; charset=utf-8";
                           End (Text "Not found")];
              escaped := false |}).
Proof.
  intros Hr.
  destruct (apiHandled_routes E wheels req)
    as [(Hr' & _) | [(Hr' & _) | (_ & Hh)]]; try congruence.
  unfold Static.listener. rewrite Hh, Hr.
  destruct (tryServeStatic req [] publicDir) as [[served res']|] eqn:Hs.
  - apply tryServeStatic_cases in Hs
      as [[-> ->] | (-> & _ & _ & filePath & content & _ & ->)]; simpl.
    + split; [done|]. by right; right.
    + split; [done|]. right; left. by eexists _, _.
  - simpl. split; [done|]. left. split; [|done].
    unfold Static.tryServeStatic in Hs.
    destruct (decodeURI (pathname req)); [|done]. exfalso.
    destruct (negb (String.eqb (method req) "GET")
              && negb (String.eqb (method req) "HEAD")); [done|].
    cbv zeta in Hs. destruct (negb (String.prefix _ _)); [done|].
    destruct (fs _) as [[|c]|]; try done. by destruct (fs _).
Qed.

(** X22.  A request whose method is not GET, HEAD or POST and whose path
    can be decoded is answered 404, Not found, as plain text, whatever its
    path is; no file is read for it and the store stays as it is. *)
Theorem other_methods_not_found E wheels req decoded :
  method req <> "GET" -> method req <> "HEAD" -> method req <> "POST" ->
  decodeURI (pathname req) = Some decoded ->
  listener E wheels req
  = ({| response := [WriteHead 404 "text/plain; charset=utf-8";
                     End (Text "Not found")];
        escaped := false |}, wheels).
Proof.
  intros HG HH HP Hd.
  assert (Hr : apiHandled wheels req = ReturnsFalse).
  { destruct (apiHandled_routes E wheels req)
      as [(_ & _ & HP' & _) | [(Hr' & s & d & Hh) | (Hr' & _)]]; [done| |done].
    destruct (handleApi_routes StringToNumber ObjectToNumber E wheels req)
      as [(HP' & _) | [(id & HG' & _) | [(id & HP' & _) | (_ & _ & Hna)]]];
      try done.
    fold handleApi in Hna. rewrite Hna in Hh. discriminate. }
  destruct (apiHandled_routes E wheels req)
    as [(Hr' & _) | [(Hr' & _) | (_ & Hh)]]; try congruence.
  unfold Static.listener, Static.tryServeStatic. rewrite Hh, Hr, Hd.
  apply String.eqb_neq in HG, HH. by rewrite HG, HH.
Qed.

End ListenerProperties.

(** * The properties on the sample inputs *)

Section Samples.

Local Abbreviation handleApi :=
  (Server.handleApi Sample.StringToNumber Sample.ObjectToNumber).

Local Open Scope float_scope.

(** The list-results path of the stored sample wheel is answered with its
    options; the spin it holds is not in the answer. *)
Lemma results_route_answers_describe_sample :
  match_wheel "/results" "/api/wheel/k3x9q2mz/results" = Some "k3x9q2mz"
  /\ handleApi Sample.E Sample.wheels
       {| method := "GET"; pathname := "/api/wheel/k3x9q2mz/results"; body := None |}
     = (Server.describeWheel Sample.wheels "k3x9q2mz", Sample.wheels)
  /\ Server.describeWheel Sample.wheels "k3x9q2mz"
     = Sent 200 (WheelBody (Some "k3x9q2mz") (Some [Sample.Prize; Sample.Nothing])).
Proof.
  split; [reflexivity|]. split.
  - apply results_route_answers_describe. reflexivity.
  - vm_compute. reflexivity.
Defined.

(** C2, the claim as it was stated fails: with the options A and B of
    weight 1 and the draw 5, no running sum exceeds the draw, and the option
    chosen is A, not the last option B. *)
Lemma fallthrough_is_not_last :
  let A := {| label := Js.str "A"; weight := 1 |} in
  let B := {| label := Js.str "B"; weight := 1 |} in
  (cumulative_before [A; B] 1 <=? 5) = true
  /\ (cumulative_before [A; B] 2 <=? 5) = true
  /\ (totalWeight [A; B] <=? 5) = true
  /\ choose [A; B] 5 = Some A
  /\ last [A; B] = Some B
  /\ choose [A; B] 5 <> last [A; B].
Proof.
  vm_compute. repeat split. intros H.
  apply (f_equal (fun o => match o with Some {| label := [c] |} => c | _ => 0%N end)) in H.
  discriminate.
Defined.

Lemma choose_falls_back_to_first_sample :
  [Sample.Prize; Sample.Nothing] <> []
  /\ (exists o, choose [Sample.Prize; Sample.Nothing] 12 = Some o
                /\ o ∈ [Sample.Prize; Sample.Nothing])
  /\ (totalWeight [Sample.Prize; Sample.Nothing] <=? 12) = true
  /\ choose [Sample.Prize; Sample.Nothing] 12 = Some Sample.Prize.
Proof.
  assert (Hne : [Sample.Prize; Sample.Nothing] <> []) by discriminate.
  destruct (choose_falls_back_to_first [Sample.Prize; Sample.Nothing] 12 Hne)
    as (Hsome & Hfall & _).
  split; [exact Hne|]. split; [exact Hsome|]. apply Hfall.
  intros [|[|j]] Hj; [reflexivity|reflexivity|].
  simpl in Hj. lia.
Defined.

(** C3, the claim as it was stated fails: with the options A, B and C of
    weights 0.1, 0.7 and 1 and the draw 0.7999999999999999, which is in
    range, the draw lies in the interval of B read over the real numbers
    (it is at least the weight of A and below the sum of the weights of A
    and B), yet the running sum that the loop computes for B, 0.1 + 0.7
    rounded, is the draw itself, the test [r < cumulative] fails and the
    option chosen is C. *)
Lemma real_interval_is_not_selected :
  let A := {| label := Js.str "A"; weight := 0x1.999999999999ap-4 |} in
  let B := {| label := Js.str "B"; weight := 0x1.6666666666666p-1 |} in
  let C := {| label := Js.str "C"; weight := 1 |} in
  let r := 0x1.9999999999999p-1 in
  Forall (fun o => Js.positive (weight o)) [A; B; C]
  /\ (0 <=? r) = true /\ (r <? totalWeight [A; B; C]) = true
  /\ [A; B; C] !! 1%nat = Some B
  /\ (real_before [A; B; C] 1 <= Js.real_value r)%Q
  /\ (Js.real_value r < real_before [A; B; C] 1 + Js.real_value (weight B))%Q
  /\ cumulative_before [A; B; C] 2 = r
  /\ choose [A; B; C] r = Some C.
Proof.
  intros A B C r. split; [repeat constructor|].
  repeat (split; [vm_compute; first [reflexivity | discriminate]|]).
  vm_compute. reflexivity.
Defined.

(** The last interval taken as [totalWeight - lastWeight, totalWeight): with
    the options A and B of weights 1 and 10^16 the total weight is 10^16 (the
    1 is absorbed), the difference is 0, and the draw 0.5, which is at least
    the difference and below the total, selects A, not the last option B. *)
Lemma last_interval_by_subtraction_fails :
  let A := {| label := Js.str "A"; weight := 1 |} in
  let B := {| label := Js.str "B"; weight := 10000000000000000 |} in
  totalWeight [A; B] = 10000000000000000
  /\ (totalWeight [A; B] - weight B <=? 0.5) = true
  /\ (0.5 <? totalWeight [A; B]) = true
  /\ choose [A; B] 0.5 = Some A
  /\ last [A; B] = Some B.
Proof. repeat split; reflexivity. Qed.

Lemma choose_selects_interval_sample :
  [Sample.Prize; Sample.Nothing] <> []
  /\ Forall (fun o => Js.positive (weight o)) [Sample.Prize; Sample.Nothing]
  /\ (0 <=? 5)%float = true /\ (5 <? totalWeight [Sample.Prize; Sample.Nothing]) = true
  /\ exists i o, [Sample.Prize; Sample.Nothing] !! i = Some o
       /\ choose [Sample.Prize; Sample.Nothing] 5 = Some o
       /\ (cumulative_before [Sample.Prize; Sample.Nothing] i <=? 5) = true
       /\ (5 <? cumulative_before [Sample.Prize; Sample.Nothing] i + weight o) = true.
Proof.
  assert (Hne : [Sample.Prize; Sample.Nothing] <> []) by discriminate.
  assert (Hpos : Forall (fun o => Js.positive (weight o))
                   [Sample.Prize; Sample.Nothing])
    by (repeat constructor).
  assert (H0 : (0 <=? 5)%float = true) by reflexivity.
  assert (Hr : (5 <? totalWeight [Sample.Prize; Sample.Nothing]) = true)
    by reflexivity.
  destruct (choose_selects_interval [Sample.Prize; Sample.Nothing] 5
              Hne Hpos H0 Hr)
    as [(i & o & Hi & Hc & Hlo & Hhi & _) _].
  repeat split; try assumption. exists i, o. repeat split; assumption.
Defined.

Lemma sample_entries_valid :
  Forall2 (Server.stored_as Sample.StringToNumber Sample.ObjectToNumber)
    Sample.entries [Sample.Prize; Sample.Nothing].
Proof.
  repeat constructor.
  - exists (Js.str " Prize "), (Js.Num 1). by repeat split.
  - exists (Js.str "Nothing"), (Js.Num 9). by repeat split.
Defined.

Lemma sample_submits entries :
  Server.submits (Sample.payload entries) entries.
Proof. eexists. split; reflexivity. Defined.

Lemma create_rejects_invalid_entry_sample :
  Exists (Server.invalid_entry Sample.StringToNumber Sample.ObjectToNumber)
    Sample.blank_entries
  /\ Forall (Server.readable Sample.StringToNumber Sample.ObjectToNumber)
       Sample.blank_entries
  /\ handleApi Sample.E Sample.wheels (Sample.create Sample.blank_entries)
     = (Sent 400 (ErrorBody
          "Each option must contain a non-empty label and a positive numeric weight"),
        Sample.wheels).
Proof.
  assert (Hbad : Exists (Server.invalid_entry Sample.StringToNumber Sample.ObjectToNumber)
                   Sample.blank_entries).
  { apply Exists_cons_tl, Exists_cons_hd.
    exists (Js.Str (Js.str "   ")), (Js.Num 9).
    repeat split. by left. }
  assert (Hread : Forall (Server.readable Sample.StringToNumber Sample.ObjectToNumber)
                    Sample.blank_entries).
  { repeat constructor.
    - exists (Js.Str (Js.str "Prize")), (Js.Num 1), 1.
      by repeat split.
    - exists (Js.Str (Js.str "   ")), (Js.Num 9), 9.
      by repeat split. }
  split; [exact Hbad|]. split; [exact Hread|].
  destruct (create_rejects_invalid_entry _ _ Sample.E Sample.wheels _
              Sample.blank_entries (sample_submits _) Hbad) as [_ Hanswer].
  exact (Hanswer Hread).
Defined.

Lemma create_then_describe_sample :
  handleApi Sample.E ∅ (Sample.create Sample.entries)
  = (Sent 201 (CreatedBody "k3x9q2mz" "/wheel.html?id=k3x9q2mz"
                           "/results.html?id=k3x9q2mz"),
     {[ "k3x9q2mz" := {| Wheel.id := "k3x9q2mz";
                         Wheel.options := [Sample.Prize; Sample.Nothing];
                         Wheel.results := [] |} ]})
  /\ forall b,
       handleApi Sample.E_retry
         {[ "k3x9q2mz" := {| Wheel.id := "k3x9q2mz";
                             Wheel.options := [Sample.Prize; Sample.Nothing];
                             Wheel.results := [] |} ]}
         {| method := "GET"; pathname := "/api/wheel/k3x9q2mz"; body := b |}
       = (Sent 200 (WheelBody (Some "k3x9q2mz") (Some [Sample.Prize; Sample.Nothing])),
          {[ "k3x9q2mz" := {| Wheel.id := "k3x9q2mz";
                              Wheel.options := [Sample.Prize; Sample.Nothing];
                              Wheel.results := [] |} ]}).
Proof.
  assert (Hrun : handleApi Sample.E ∅ (Sample.create Sample.entries)
    = (Sent 201 (CreatedBody "k3x9q2mz" "/wheel.html?id=k3x9q2mz"
                             "/results.html?id=k3x9q2mz"),
       {[ "k3x9q2mz" := {| Wheel.id := "k3x9q2mz";
                           Wheel.options := [Sample.Prize; Sample.Nothing];
                           Wheel.results := [] |} ]}))
    by (vm_compute; reflexivity).
  split; [exact Hrun|]. intros b.
  destruct (create_then_describe _ _ _ _ _ _ _ _ _ _ _
              (sample_submits Sample.entries) ltac:(discriminate)
              sample_entries_valid Hrun) as (_ & _ & _ & Hget).
  apply (Hget ltac:(reflexivity) ltac:(discriminate) Sample.E_retry b).
Defined.

Lemma spin_appends_one_result_sample :
  match_wheel "/spin" "/api/wheel/k3x9q2mz/spin" = Some "k3x9q2mz"
  /\ Sample.wheels !! "k3x9q2mz" = Some Sample.wheel
  /\ exists wheels',
       handleApi Sample.E_retry Sample.wheels
         (Sample.spin_request "k3x9q2mz" (Sample.participant " Bob" "555-2 "))
       = (Sent 200 (SpinBody (Js.str "Nothing")), wheels')
       /\ wheels' !! "k3x9q2mz"
          = Some {| Wheel.id := "k3x9q2mz";
                    Wheel.options := [Sample.Prize; Sample.Nothing];
                    Wheel.results :=
                      Wheel.results Sample.wheel
                      ++ [ {| name := Js.str "Bob"; phone := Js.str "555-2";
                              result := Js.str "Nothing";
                              timestamp := 1700000000001 |} ] |}.
Proof.
  assert (Hp : match_wheel "/spin" "/api/wheel/k3x9q2mz/spin" = Some "k3x9q2mz")
    by reflexivity.
  assert (Hw : Sample.wheels !! "k3x9q2mz" = Some Sample.wheel)
    by (vm_compute; reflexivity).
  split; [exact Hp|]. split; [exact Hw|].
  eexists. split; [vm_compute; reflexivity|].
  match goal with
  | |- ?m !! _ = _ =>
      assert (Hrun : handleApi Sample.E_retry Sample.wheels
                (Sample.spin_request "k3x9q2mz" (Sample.participant " Bob" "555-2 "))
              = (Sent 200 (SpinBody (Js.str "Nothing")), m))
        by (vm_compute; reflexivity)
  end.
  destruct (spin_appends_one_result _ _ _ _ _ _ _ _ _ _ Hp Hw Hrun)
    as (payload & n & ph & chosen & [= <-] & [= <-] & [= <-] & Hc & _ & _ & Hres & _).
  vm_compute in Hc. injection Hc as <-. exact Hres.
Defined.

Lemma create_allocates_within_five_attempts_sample :
  (snd (Server.allocate Sample.E_retry Sample.wheels 0 4) = 3)%nat
  /\ handleApi Sample.E_retry Sample.wheels (Sample.create Sample.entries)
     = (Sent 201 (CreatedBody "zz" "/wheel.html?id=zz" "/results.html?id=zz"),
        <["zz" := {| Wheel.id := "zz";
                     Wheel.options := [Sample.Prize; Sample.Nothing];
                     Wheel.results := [] |}]> Sample.wheels)
  /\ handleApi Sample.E Sample.wheels (Sample.create Sample.entries)
     = (Sent 500 (ErrorBody "Could not allocate id"), Sample.wheels).
Proof.
  assert (Hrand : forall E, E = Sample.E \/ E = Sample.E_retry ->
            forall i, (i < 5)%nat -> radix36 (random36 E i) = true).
  { intros E [-> | ->] i Hi; [reflexivity|].
    do 5 (destruct i as [|i]; [reflexivity|]). lia. }
  destruct (create_allocates_within_five_attempts _ _ Sample.E_retry Sample.wheels
              _ _ _ (sample_submits Sample.entries) ltac:(discriminate)
              sample_entries_valid (Hrand _ ltac:(by right)))
    as (_ & Hfree & _).
  destruct (create_allocates_within_five_attempts _ _ Sample.E Sample.wheels
              _ _ _ (sample_submits Sample.entries) ltac:(discriminate)
              sample_entries_valid (Hrand _ ltac:(by left)))
    as (_ & _ & Htaken).
  destruct (Hfree 2%nat ltac:(lia) ltac:(vm_compute; reflexivity)) as [Hn Hrun].
  { intros j Hj. do 2 (destruct j as [|j]; [by eexists|]). lia. }
  split; [exact Hn|]. split; [exact Hrun|].
  apply Htaken. intros i _. by eexists.
Defined.

Lemma keys_match_invariant_sample :
  Server.keys_match ∅
  /\ Server.keys_match
       (snd (handleApi Sample.E ∅ (Sample.create Sample.entries))).
Proof.
  destruct (keys_match_invariant Sample.StringToNumber Sample.ObjectToNumber)
    as [Hempty Hstep].
  split; [exact Hempty|]. apply Hstep, Hempty.
Defined.

End Samples.


(** * The further properties on the sample site *)

Section Scenarios.

Local Open Scope float_scope.

Local Abbreviation stn := Sample.StringToNumber.
Local Abbreviation otn := Sample.ObjectToNumber.

Lemma sample_wheels_valid : Server.options_valid Sample.wheels.
Proof.
  intros k w Hk. unfold Sample.wheels in Hk.
  apply lookup_singleton_Some in Hk as [_ <-]. split; [done|].
  repeat constructor; done.
Defined.

Lemma sample_draws_render (E : env) :
  E = Sample.E -> forall i, radix36 (random36 E i) = true.
Proof. intros -> i. reflexivity. Defined.

Lemma store_changes_only_on_success_sample :
  snd (Scenario.handleApi Sample.E ∅ (Sample.create Sample.entries)) <> ∅
  /\ exists id link resultsLink,
       fst (Scenario.handleApi Sample.E ∅ (Sample.create Sample.entries))
       = Sent 201 (CreatedBody id link resultsLink).
Proof.
  assert (H : snd (Scenario.handleApi Sample.E ∅ (Sample.create Sample.entries)) <> ∅).
  { intros H. apply (f_equal (fun m => m !! "k3x9q2mz")) in H.
    vm_compute in H. discriminate. }
  split; [exact H|].
  destruct (store_changes_only_on_success stn otn Sample.E ∅
              (Sample.create Sample.entries) H) as [Hc | [chosen Hs]]; [exact Hc|].
  vm_compute in Hs. discriminate.
Defined.

Lemma served_keys_base36_sample :
  exists w,
    snd (History.serve stn otn ∅ Scenario.requests) !! "k3x9q2mz" = Some w
    /\ is_base36_id "k3x9q2mz" = true
    /\ ("k3x9q2mz" ∉ Object_prototype)
    /\ all_chars is_id_char "k3x9q2mz" = true.
Proof.
  assert (Hrand : Forall (fun x => forall i, radix36 (random36 (fst x) i) = true)
                    Scenario.requests).
  { repeat constructor; intros i; reflexivity. }
  eexists. assert (Hk : snd (History.serve stn otn ∅ Scenario.requests)
                        !! "k3x9q2mz" = Some _) by (vm_compute; reflexivity).
  split; [exact Hk|].
  exact (served_keys_base36 stn otn Scenario.requests Hrand _ _ Hk).
Defined.

Lemma describe_answers_from_store_sample :
  Scenario.handleApi Sample.E Sample.wheels
    {| method := "GET"; pathname := "/api/wheel/k3x9q2mz/results"; body := None |}
  = (Sent 200 (WheelBody (Some "k3x9q2mz") (Some [Sample.Prize; Sample.Nothing])),
     Sample.wheels).
Proof.
  destruct (describe_answers_from_store stn otn Sample.E Sample.wheels
              "k3x9q2mz" "/results" None ltac:(discriminate) ltac:(reflexivity))
    as [Hstored _].
  - right. by eexists _, _.
  - apply (Hstored Sample.wheel). vm_compute. reflexivity.
Defined.

Lemma spin_unknown_wheel_not_found_sample :
  Scenario.handleApi Sample.E Sample.wheels
    (Sample.spin_request "nowheel" (Sample.participant "Bob" "555-3"))
  = (Sent 404 (ErrorBody "Wheel not found"), Sample.wheels).
Proof.
  apply (spin_unknown_wheel_not_found stn otn Sample.E Sample.wheels "nowheel" "").
  - discriminate.
  - reflexivity.
  - vm_compute. reflexivity.
  - intros Hin. unfold Object_prototype in Hin.
    repeat (apply elem_of_cons in Hin as [Hin|Hin]; [discriminate Hin|]).
    by apply elem_of_nil in Hin.
Defined.

Lemma spin_answer_by_participant_sample :
  Scenario.handleApi Sample.E Sample.wheels
    (Sample.spin_request "k3x9q2mz" (Sample.participant "  " "555-2"))
  = (Sent 400 (ErrorBody "Name and phone are required"), Sample.wheels)
  /\ exists chosen, chosen ∈ Wheel.options Sample.wheel
       /\ fst (Scenario.handleApi Sample.E Sample.wheels
                 (Sample.spin_request "k3x9q2mz" (Sample.participant "Ann" "555-1")))
          = Sent 200 (SpinBody (label chosen)).
Proof.
  assert (Hw : Sample.wheels !! "k3x9q2mz" = Some Sample.wheel)
    by (vm_compute; reflexivity).
  split.
  - destruct (spin_answer_by_participant stn otn Sample.E Sample.wheels
                "/api/wheel/k3x9q2mz/spin" (Sample.participant "  " "555-2")
                "k3x9q2mz" Sample.wheel
                (Js.Str (Js.str "  ")) (Js.Str (Js.str "555-2"))
                sample_wheels_valid eq_refl Hw eq_refl eq_refl) as [Hblank _].
    apply Hblank. by left.
  - destruct (spin_answer_by_participant stn otn Sample.E Sample.wheels
                "/api/wheel/k3x9q2mz/spin" (Sample.participant "Ann" "555-1")
                "k3x9q2mz" Sample.wheel
                (Js.Str (Js.str "Ann")) (Js.Str (Js.str "555-1"))
                sample_wheels_valid eq_refl Hw eq_refl eq_refl) as [_ Hok].
    apply Hok; discriminate.
Defined.

Lemma create_requires_options_array_sample :
  Scenario.handleApi Sample.E Sample.wheels (Sample.create [])
  = (Sent 400 (ErrorBody "options array is required"), Sample.wheels).
Proof.
  apply (create_requires_options_array stn otn).
  intros fields e es [= <-]. discriminate.
Defined.

Lemma handleApi_statuses_sample :
  fst (Scenario.handleApi Sample.E ∅ (Sample.create Sample.entries))
  = Sent 201 (CreatedBody "k3x9q2mz" "/wheel.html?id=k3x9q2mz"
                          "/results.html?id=k3x9q2mz")
  /\ exists id,
       CreatedBody "k3x9q2mz" "/wheel.html?id=k3x9q2mz" "/results.html?id=k3x9q2mz"
       = CreatedBody id ("/wheel.html?id=" ++ id) ("/results.html?id=" ++ id).
Proof.
  assert (H : fst (Scenario.handleApi Sample.E ∅ (Sample.create Sample.entries))
              = Sent 201 (CreatedBody "k3x9q2mz" "/wheel.html?id=k3x9q2mz"
                                      "/results.html?id=k3x9q2mz"))
    by (vm_compute; reflexivity).
  split; [exact H|].
  destruct (handleApi_statuses stn otn _ _ _ _ _ H)
    as [[_ Hc] | [[? _] | [[? _] | [[? _] | [? _]]]]]; [exact Hc|discriminate..].
Defined.

Lemma one_wheel_matters_sample :
  fst (Scenario.handleApi Sample.E Sample.wheels
         (Sample.spin_request "k3x9q2mz" (Sample.participant "Ann" "555-1")))
  = fst (Scenario.handleApi Sample.E
           (<["zz" := Sample.wheel]> Sample.wheels)
           (Sample.spin_request "k3x9q2mz" (Sample.participant "Ann" "555-1"))).
Proof.
  apply (one_wheel_matters stn otn Sample.E Sample.wheels
           (<["zz" := Sample.wheel]> Sample.wheels)
           (Sample.spin_request "k3x9q2mz" (Sample.participant "Ann" "555-1"))
           "k3x9q2mz").
  - right. split; reflexivity.
  - vm_compute. reflexivity.
Defined.

Lemma choose_monotone_sample :
  exists i j oi oj,
    [Sample.Prize; Sample.Nothing] !! i = Some oi
    /\ [Sample.Prize; Sample.Nothing] !! j = Some oj
    /\ choose [Sample.Prize; Sample.Nothing] 0.5 = Some oi
    /\ choose [Sample.Prize; Sample.Nothing] 5 = Some oj
    /\ (i <= j)%nat.
Proof.
  apply choose_monotone; [discriminate|reflexivity|reflexivity].
Defined.

Lemma spin_selects_by_weight_sample :
  exists i chosen,
    Wheel.options Sample.wheel !! i = Some chosen
    /\ (random Sample.E * totalWeight (Wheel.options Sample.wheel)
        <? cumulative_before (Wheel.options Sample.wheel) (S i)) = true
    /\ (forall j, (j < i)%nat ->
          (random Sample.E * totalWeight (Wheel.options Sample.wheel)
           <? cumulative_before (Wheel.options Sample.wheel) (S j)) = false)
    /\ fst (Scenario.handleApi Sample.E Sample.wheels
              (Sample.spin_request "k3x9q2mz" (Sample.participant "Ann" "555-1")))
       = Sent 200 (SpinBody (label chosen)).
Proof.
  apply (spin_selects_by_weight stn otn Sample.E Sample.wheels
           "/api/wheel/k3x9q2mz/spin" (Sample.participant "Ann" "555-1")
           "k3x9q2mz" Sample.wheel (Js.str "Ann") (Js.str "555-1")
           sample_wheels_valid);
    try reflexivity; try discriminate; vm_compute; reflexivity.
Defined.

Lemma api_return_value_sample :
  Static.apiHandled Sample.wheels
    {| method := "GET"; pathname := "/api/wheel/k3x9q2mz"; body := None |}
  = Static.ReturnsUndefined
  /\ exists statusCode data,
       Scenario.handleApi Sample.E Sample.wheels
         {| method := "GET"; pathname := "/api/wheel/k3x9q2mz"; body := None |}
       = (Sent statusCode data, Sample.wheels).
Proof.
  destruct (api_return_value stn otn Sample.E Sample.wheels
              {| method := "GET"; pathname := "/api/wheel/k3x9q2mz"; body := None |})
    as (_ & _ & Hrest).
  apply Hrest; vm_compute; discriminate.
Defined.

Lemma answered_then_rejected_sample :
  Scenario.listener Sample.E Sample.wheels
    {| method := "GET"; pathname := "/api/wheel/k3x9q2mz"; body := None |}
  = ({| Static.response :=
          [Static.WriteHead 200 "application/json; charset=utf-8";
           Static.End (Static.Json
             (WheelBody (Some "k3x9q2mz") (Some [Sample.Prize; Sample.Nothing])))];
        Static.escaped := true |}, Sample.wheels).
Proof.
  destruct (answered_then_rejected Scenario.decodeURI Scenario.join Scenario.resolve
              Scenario.extname Scenario.fs Scenario.publicDir stn otn
              Sample.E Sample.wheels
              {| method := "GET"; pathname := "/api/wheel/k3x9q2mz"; body := None |}
              ltac:(reflexivity)) as (s & d & Hsent & Hrun).
  vm_compute in Hsent. injection Hsent as <- <-. exact Hrun.
Defined.

Lemma tryServeStatic_serves_sample :
  Static.tryServeStatic Scenario.decodeURI Scenario.join Scenario.resolve
    Scenario.extname Scenario.fs
    {| method := "HEAD"; pathname := "/"; body := None |} [] Scenario.publicDir
  = Static.Returns
      (true, [Static.WriteHead 200 "text/html; charset=utf-8";
              Static.End Static.NoBody])
  /\ exists filePath content,
       Scenario.fs filePath = Some (Static.File (Some content))
       /\ [Static.WriteHead 200 "text/html; charset=utf-8"; Static.End Static.NoBody]
          = [Static.WriteHead 200 (Static.getContentType Scenario.extname filePath);
             Static.End Static.NoBody].
Proof.
  assert (H : Static.tryServeStatic Scenario.decodeURI Scenario.join Scenario.resolve
                Scenario.extname Scenario.fs
                {| method := "HEAD"; pathname := "/"; body := None |} []
                Scenario.publicDir
              = Static.Returns
                  (true, [Static.WriteHead 200 "text/html; charset=utf-8";
                          Static.End Static.NoBody])) by (vm_compute; reflexivity).
  split; [exact H|].
  destruct (tryServeStatic_serves _ _ _ _ _ _ _ _ _ _ H) as (_ & _ & Htrue).
  destruct (Htrue eq_refl) as (_ & _ & filePath & content & Hfs & Hres).
  by exists filePath, content.
Defined.

Lemma not_api_gets_one_answer_sample :
  Static.apiHandled Sample.wheels {| method := "GET"; pathname := "/"; body := None |}
  = Static.ReturnsFalse
  /\ snd (Scenario.listener Sample.E Sample.wheels
            {| method := "GET"; pathname := "/"; body := None |}) = Sample.wheels
  /\ fst (Scenario.listener Sample.E Sample.wheels
            {| method := "GET"; pathname := "/"; body := None |})
     = {| Static.response :=
            [Static.WriteHead 200 "text/html; charset=utf-8";
             Static.End (Static.Content "<!doctype html>")];
          Static.escaped := false |}.
Proof.
  assert (Hr : Static.apiHandled Sample.wheels
                 {| method := "GET"; pathname := "/"; body := None |}
               = Static.ReturnsFalse) by reflexivity.
  split; [exact Hr|].
  destruct (not_api_gets_one_answer Scenario.decodeURI Scenario.join Scenario.resolve
              Scenario.extname Scenario.fs Scenario.publicDir stn otn
              Sample.E Sample.wheels _ Hr) as [Hstore _].
  split; [exact Hstore|]. vm_compute. reflexivity.
Defined.

Lemma other_methods_not_found_sample :
  Scenario.listener Sample.E Sample.wheels
    {| method := "DELETE"; pathname := "/api/wheel/k3x9q2mz"; body := None |}
  = ({| Static.response :=
          [Static.WriteHead 404 "text/plain; charset=utf-8";
           Static.End (Static.Text "Not found")];
        Static.escaped := false |}, Sample.wheels).
Proof.
  apply (other_methods_not_found Scenario.decodeURI Scenario.join Scenario.resolve
           Scenario.extname Scenario.fs Scenario.publicDir stn otn
           Sample.E Sample.wheels _ "/api/wheel/k3x9q2mz");
    try discriminate. reflexivity.
Defined.

Lemma served_store_extends_sample :
  exists w',
    snd (History.serve stn otn Sample.wheels Scenario.requests) !! "k3x9q2mz"
    = Some w'
    /\ Wheel.id w' = Wheel.id Sample.wheel
    /\ Wheel.options w' = Wheel.options Sample.wheel
    /\ Wheel.results Sample.wheel `prefix_of` Wheel.results w'.
Proof.
  apply (served_store_extends stn otn Scenario.requests Sample.wheels "k3x9q2mz").
  vm_compute. reflexivity.
Defined.

Lemma served_options_valid_sample :
  Server.options_valid (snd (History.serve stn otn ∅ Scenario.requests)).
Proof. apply served_options_valid. Defined.

Lemma served_strings_trimmed_sample :
  History.strings_trimmed (snd (History.serve stn otn ∅ Scenario.requests)).
Proof. apply served_strings_trimmed. Defined.

Lemma served_results_from_options_sample :
  History.results_from_options (snd (History.serve stn otn ∅ Scenario.requests)).
Proof. apply served_results_from_options. Defined.

Lemma served_wheel_count_sample :
  size (snd (History.serve stn otn ∅ Scenario.requests)) = 1%nat.
Proof. rewrite served_wheel_count. vm_compute. reflexivity. Defined.

Lemma served_results_count_sample :
  History.results_count (snd (History.serve stn otn ∅ Scenario.requests)) "k3x9q2mz"
  = 1%nat
  /\ History.results_count (snd (History.serve stn otn ∅ Scenario.requests)) "nowheel"
     = 0%nat.
Proof. rewrite !served_results_count. vm_compute. by split. Defined.

End Scenarios.
